(** * rest-explorer: the request pipeline and the two view controllers

    A shallow embedding of [src/extension.ts]: the request executor
    [makeRequest] (both copies: the one of [RestExplorerViewProvider] and
    the one declared inside [activate]), the cookie and header
    normaliser it contains, the form serialiser [sendRequest] of the
    request panel, and the message handlers of the history view and of
    the request panels, run on an explicit event loop.

    Conventions.
    - A JavaScript string is the [string] of its code units; the
      development covers code units below 256.
    - A plain JavaScript object used as a dictionary
      ([Record<string, string>]) is a [gmap string string]; the order in
      which [Object.entries] enumerates it is not modelled.
    - An optional field ([url?: string]) is an [option]; [None] is
      [undefined].
    - [Date.now()] and the libraries the file calls ([URL], node-fetch,
      the editor host) are parameters of the development. *)

From Stdlib Require Import ZArith String Ascii List Bool Lia.
From stdpp Require Import gmap strings list fin_maps.

Open Scope string_scope.

(** ** JavaScript strings *)

Module JS.

(** Truthiness of a string: only the empty string is falsy. *)
Definition truthy (s : string) : bool :=
  match s with
  | EmptyString => false
  | String _ _ => true
  end.

(** Truthiness of an optional string: [undefined] and [""] are falsy. *)
Definition truthy_opt (o : option string) : bool :=
  match o with
  | Some s => truthy s
  | None => false
  end.

(** [s.split(sep)] for a separator of one code unit. *)
Fixpoint split (sep : ascii) (s : string) : list string :=
  match s with
  | EmptyString => [EmptyString]
  | String c s' =>
      if Ascii.eqb c sep then EmptyString :: split sep s'
      else match split sep s' with
           | [] => [String c EmptyString]
           | piece :: pieces => String c piece :: pieces
           end
  end.

(** White space and line terminators of ECMAScript, below code unit 256:
    TAB, LF, VT, FF, CR, SP and NBSP. *)
Definition is_white_space (c : ascii) : bool :=
  let n := nat_of_ascii c in
  (Nat.leb 9 n && Nat.leb n 13) || Nat.eqb n 32 || Nat.eqb n 160.

Fixpoint trimStart (s : string) : string :=
  match s with
  | EmptyString => EmptyString
  | String c s' => if is_white_space c then trimStart s' else s
  end.

Fixpoint trimEnd (s : string) : string :=
  match s with
  | EmptyString => EmptyString
  | String c s' =>
      match trimEnd s' with
      | EmptyString => if is_white_space c then EmptyString else String c EmptyString
      | t => String c t
      end
  end.

(** [s.trim()]. *)
Definition trim (s : string) : string := trimEnd (trimStart s).

(** A template literal renders an absent value as the word undefined. *)
Definition interpolate (o : option string) : string :=
  match o with
  | Some s => s
  | None => "undefined"
  end.

(** [obj[k] = v] on an object literal. The key [__proto__] is the one
    name for which the assignment of a string does not create a
    property: the inherited setter ignores values that are not
    objects. *)
Definition obj_set (k v : string) (o : gmap string string) : gmap string string :=
  if decide (k = "__proto__") then o else <[k := v]> o.

(** [list.includes(x)] on strings. *)
Definition includes (l : list string) (x : string) : bool :=
  existsb (String.eqb x) l.

End JS.

(** ** The cookie parser of [makeRequest]

    [[
    const cookies = {};
    const setCookieHeader = response.headers.get('set-cookie');
    if (setCookieHeader) {
        setCookieHeader.split(';').forEach(cookie => {
            const [name, value] = cookie.split('=');
            if (name && value) { cookies[name.trim()] = value.trim(); }
        });
    }
    ]] *)

(** The body of the [forEach]: one segment, applied to the object built
    so far. *)
Definition cookie_step (cookies : gmap string string) (cookie : string)
  : gmap string string :=
  match JS.split "="%char cookie with
  | name :: value :: _ =>
      if JS.truthy name && JS.truthy value
      then JS.obj_set (JS.trim name) (JS.trim value) cookies
      else cookies
  | _ => cookies
  end.

Definition parseCookies (setCookieHeader : option string) : gmap string string :=
  match setCookieHeader with
  | Some h =>
      if JS.truthy h then foldl cookie_step ∅ (JS.split ";"%char h) else ∅
  | None => ∅
  end.


(** ** The cookie parser in the words of the specification

    "Split on [;], then split each segment on the first [=]; segments
    lacking an [=] or with an empty name/value after trimming are
    dropped silently." Kept apart from [parseCookies], to be compared
    with it. *)

Fixpoint split_first (sep : ascii) (s : string) : option (string * string) :=
  match s with
  | EmptyString => None
  | String c s' =>
      if Ascii.eqb c sep then Some (EmptyString, s')
      else match split_first sep s' with
           | Some (a, b) => Some (String c a, b)
           | None => None
           end
  end.

Definition spec_cookie_step (cookies : gmap string string) (segment : string)
  : gmap string string :=
  match split_first "="%char segment with
  | Some (name, value) =>
      if JS.truthy (JS.trim name) && JS.truthy (JS.trim value)
      then <[JS.trim name := JS.trim value]> cookies
      else cookies
  | None => cookies
  end.

Definition spec_parseCookies (setCookieHeader : option string)
  : gmap string string :=
  match setCookieHeader with
  | Some h => foldl spec_cookie_step ∅ (JS.split ";"%char h)
  | None => ∅
  end.

(** The same words with the two changes the code calls for: a segment
    is cut at every [=] and its first two pieces are the name and the
    value, and the two are tested for emptiness before they are
    trimmed. A name [__proto__] is not stored and an empty header gives
    nothing, as in any object of the code. *)

Definition up_to (sep : ascii) (s : string) : string :=
  match split_first sep s with
  | Some (a, _) => a
  | None => s
  end.

Definition amended_cookie_step (cookies : gmap string string) (segment : string)
  : gmap string string :=
  match split_first "="%char segment with
  | Some (name, rest) =>
      let value := up_to "="%char rest in
      if JS.truthy name && JS.truthy value
      then JS.obj_set (JS.trim name) (JS.trim value) cookies
      else cookies
  | None => cookies
  end.

Definition amended_parseCookies (setCookieHeader : option string)
  : gmap string string :=
  match setCookieHeader with
  | Some h => foldl amended_cookie_step ∅ (JS.split ";"%char h)
  | None => ∅
  end.

(** A segment on which the two readings cannot differ: it has at most
    one [=], neither side of it is made of white space only, and its
    name is not [__proto__]. *)
Definition plain_segment (segment : string) : bool :=
  match JS.split "="%char segment with
  | [_] => true
  | [name; value] =>
      (negb (JS.truthy name) || JS.truthy (JS.trim name))
      && (negb (JS.truthy value) || JS.truthy (JS.trim value))
      && negb (String.eqb (JS.trim name) "__proto__")
  | _ => false
  end.

(** ** [Buffer.from(s).toString('base64')] *)

Module Buffer.

(** [Buffer.from(s)]: the UTF-8 encoding of the string. A code unit
    below 128 is one byte, one from 128 to 255 is two. *)
Definition utf8 (c : ascii) : list N :=
  let n := N_of_ascii c in
  if (n <? 128)%N then [n]
  else [N.lor 192 (N.shiftr n 6); N.lor 128 (N.land n 63)].

Fixpoint from (s : string) : list N :=
  match s with
  | EmptyString => []
  | String c s' => utf8 c ++ from s'
  end.

Definition alphabet : string :=
  "ABCDEFGHIJKLMNOPQRSTUVWXYZabcdefghijklmnopqrstuvwxyz0123456789+/".

Definition digit (n : N) : ascii :=
  match String.get (N.to_nat n) alphabet with
  | Some c => c
  | None => "="%char
  end.

(** [buf.toString('base64')]: three bytes make four digits; a last group
    of one or two bytes is padded with [=]. *)
Fixpoint toString_base64 (bytes : list N) : string :=
  match bytes with
  | [] => EmptyString
  | [a] =>
      String (digit (N.shiftr a 2))
        (String (digit (N.shiftl (N.land a 3) 4)) "==")
  | [a; b] =>
      String (digit (N.shiftr a 2))
        (String (digit (N.lor (N.shiftl (N.land a 3) 4) (N.shiftr b 4)))
           (String (digit (N.shiftl (N.land b 15) 2)) "="))
  | a :: b :: c :: rest =>
      String (digit (N.shiftr a 2))
        (String (digit (N.lor (N.shiftl (N.land a 3) 4) (N.shiftr b 4)))
           (String (digit (N.lor (N.shiftl (N.land b 15) 2) (N.shiftr c 6)))
              (String (digit (N.land c 63)) (toString_base64 rest))))
  end.

End Buffer.

(** The [base64] of the spec: the text of the base64 encoding of a
    string, as [Buffer.from(s).toString('base64')] computes it. *)
Definition base64 (s : string) : string :=
  Buffer.toString_base64 (Buffer.from s).

(** ** Base64 read back (RFC 4648)

    The decoder of the standard, written independently of the encoder
    above, to check it against. *)

Module RFC4648.

Fixpoint index_of (c : ascii) (s : string) (i : N) : option N :=
  match s with
  | EmptyString => None
  | String d s' => if Ascii.eqb c d then Some i else index_of c s' (N.succ i)
  end.

Definition value (c : ascii) : option N := index_of c Buffer.alphabet 0.

Fixpoint decode (s : string) : option (list N) :=
  match s with
  | EmptyString => Some []
  | String c0 (String c1 (String c2 (String c3 rest))) =>
      match value c0, value c1 with
      | Some s0, Some s1 =>
          let b0 := N.lor (N.shiftl s0 2) (N.shiftr s1 4) in
          let b1 s2 := N.lor (N.shiftl (N.land s1 15) 4) (N.shiftr s2 2) in
          match value c2, value c3 with
          | Some s2, Some s3 =>
              match decode rest with
              | Some bytes =>
                  Some (b0 :: b1 s2 :: N.lor (N.shiftl (N.land s2 3) 6) s3 :: bytes)
              | None => None
              end
          | Some s2, None =>
              if Ascii.eqb c3 "="%char && String.eqb rest "" then Some [b0; b1 s2]
              else None
          | None, _ =>
              if Ascii.eqb c2 "="%char && Ascii.eqb c3 "="%char && String.eqb rest ""
              then Some [b0]
              else None
          end
      | _, _ => None
      end
  | _ => None
  end.
End RFC4648.

(** The arithmetic of the encoder and of the decoder on two
    neighbouring bytes, as tests that can be run over all pairs: the
    two sextets cut from [a] and the top of [b] are below 64 and give
    [a] back, and so on for the next two. *)
Definition first_pair (a b : N) : bool :=
  let s0 := N.shiftr a 2 in
  let s1 := N.lor (N.shiftl (N.land a 3) 4) (N.shiftr b 4) in
  (s0 <? 64)%N && (s1 <? 64)%N
  && (N.lor (N.shiftl s0 2) (N.shiftr s1 4) =? a)%N
  && (N.land s1 15 =? N.shiftr b 4)%N.

Definition second_pair (b c : N) : bool :=
  let s2 := N.lor (N.shiftl (N.land b 15) 2) (N.shiftr c 6) in
  (s2 <? 64)%N && (N.land c 63 <? 64)%N
  && (N.lor (N.shiftl (N.shiftr b 4) 4) (N.shiftr s2 2) =? b)%N
  && (N.lor (N.shiftl (N.land s2 3) 6) (N.land c 63) =? c)%N.

(** ** Messages and records (lines 6-36) *)

Module Auth.
Record t : Type := mk {
  type : string;
  username : option string;
  password : option string;
  token : option string
}.
End Auth.

Module WebviewMessage.
Record t : Type := mk {
  command : string;
  url : option string;
  method : option string;
  headers : option (gmap string string);
  body : option string;
  query : option (gmap string string);
  auth : option Auth.t
}.
End WebviewMessage.

Module ResponseData.
Record t : Type := mk {
  status : Z;
  statusText : string;
  headers : gmap string string;
  body : string;
  size : nat;
  time : Z;
  cookies : gmap string string
}.
End ResponseData.

Module RequestHistory.
Record t : Type := mk {
  url : string;
  method : string;
  timestamp : Z;
  response : ResponseData.t
}.
End RequestHistory.

(** ** Exceptions *)

(** What a [catch (error: unknown)] clause can tell apart: an instance of
    [Error] with its [message], a string, or any other value. *)
Inductive thrown : Type :=
| ThrownError (message : string)
| ThrownString (s : string)
| ThrownOther.

(** The outcome of a computation that may throw, or of a promise that
    may reject. *)
Inductive completion (A : Type) : Type :=
| Normal (a : A)
| Throw (e : thrown).
Arguments Normal {A} a.
Arguments Throw {A} e.

#[global] Instance completion_ret : MRet completion := fun A a => Normal a.

#[global] Instance completion_bind : MBind completion := fun A B k c =>
  match c with
  | Normal a => k a
  | Throw e => Throw e
  end.

(** [try { c } catch (error) { h error }] *)
Definition try_catch {A : Type} (c : completion A) (h : thrown -> completion A)
  : completion A :=
  match c with
  | Normal a => Normal a
  | Throw e => h e
  end.

(** ** The transport: what [fetch] is given and what it gives back *)

(** A [URL] object: the string it was parsed from and the pairs added to
    it with [searchParams.append], oldest first. *)
Module URL.
Record t : Type := mk {
  input : string;
  appended : list (string * string)
}.
Definition searchParams_append (u : t) (kv : string * string) : t :=
  mk (input u) (appended u ++ [kv]).
End URL.

(** The [options] object passed to [fetch]. *)
Module Options.
Record t : Type := mk {
  method : option string;
  headers : gmap string string;
  body : option string
}.
End Options.

Module FetchCall.
Record t : Type := mk {
  url : URL.t;
  options : Options.t
}.
End FetchCall.

(** A node-fetch [Response], as far as [makeRequest] reads it:
    [get_set_cookie] is the value of [headers.get('set-cookie')]
    ([null] is [None]), [entries] are the pairs [headers.forEach]
    yields, in its order, and [text] is what [await response.text()]
    comes to. *)
Module Response.
Record t : Type := mk {
  status : Z;
  statusText : string;
  get_set_cookie : option string;
  entries : list (string * string);
  text : completion string
}.
End Response.

(** ** The request form of a panel and [sendRequest] (lines 979-1032) *)

Module Row.
Record t : Type := mk {
  checked : bool;
  key : string;
  value : string
}.
End Row.

Module Form.
Record t : Type := mk {
  method : string;
  url : string;
  queryParams : list Row.t;
  headerParams : list Row.t;
  activeAuthTab : string;
  username : string;
  password : string;
  token : string;
  requestBody : string
}.
End Form.

(** One turn of the [forEach] over the rows of a table: a row counts
    when it is ticked and both of its boxes are filled. *)
Definition collect_row (o : gmap string string) (row : Row.t) : gmap string string :=
  if Row.checked row && JS.truthy (Row.key row) && JS.truthy (Row.value row)
  then JS.obj_set (Row.key row) (Row.value row) o
  else o.

Definition collect (rows : list Row.t) : gmap string string :=
  foldl collect_row ∅ rows.

Definition sendRequest (f : Form.t) : WebviewMessage.t :=
  let query := collect (Form.queryParams f) in
  let headers := collect (Form.headerParams f) in
  let auth :=
    if String.eqb (Form.activeAuthTab f) "basic"
    then Auth.mk "basic" (Some (Form.username f)) (Some (Form.password f)) None
    else if String.eqb (Form.activeAuthTab f) "bearer"
    then Auth.mk "bearer" None None (Some (Form.token f))
    else Auth.mk "none" None None None in
  WebviewMessage.mk "makeRequest" (Some (Form.url f)) (Some (Form.method f))
    (Some headers) (Some (Form.requestBody f)) (Some query) (Some auth).

(** ** [makeRequest] (lines 98-185 and 299-379)

    The two copies have the same [try] and the same [catch]; the method
    of [RestExplorerViewProvider] posts the result to its view before it
    returns. An [async] function runs up to [await fetch(...)], is
    suspended there, and is resumed when the transport has answered; the
    model has one definition for each of the two stretches. *)

(** The error message of the [catch] clause (lines 362-367). *)
Definition errorMessage (error : thrown) : string :=
  match error with
  | ThrownError message => message
  | ThrownString s => s
  | ThrownOther => "An unknown error occurred"
  end.

(** The record built in the [catch] clause (lines 368-376). *)
Definition makeRequest_catch (startTime endTime : Z) (error : thrown)
  : ResponseData.t :=
  let errorMessage := errorMessage error in
  ResponseData.mk 0 "Error" ∅ errorMessage (String.length errorMessage)
    (endTime - startTime) ∅.

(** The [switch (message.auth.type)] (lines 313-323). *)
Definition apply_auth (auth : option Auth.t) (headers : gmap string string)
  : gmap string string :=
  match auth with
  | Some a =>
      if String.eqb (Auth.type a) "basic" then
        let auth :=
          base64 (JS.interpolate (Auth.username a) ++ ":"
                  ++ JS.interpolate (Auth.password a)) in
        JS.obj_set "Authorization" ("Basic " ++ auth) headers
      else if String.eqb (Auth.type a) "bearer" then
        JS.obj_set "Authorization" ("Bearer " ++ JS.interpolate (Auth.token a)) headers
      else headers
  | None => headers
  end.

(** The test of line 324:
    [['POST', 'PUT', 'PATCH'].includes(message.method!) && message.body]. *)
Definition sends_body (message : WebviewMessage.t) : bool :=
  match WebviewMessage.method message with
  | Some m => JS.includes ["POST"; "PUT"; "PATCH"] m
  | None => false
  end && JS.truthy_opt (WebviewMessage.body message).

(** Lines 324-329. *)
Definition attach_body (message : WebviewMessage.t) (options : Options.t)
  : Options.t :=
  if sends_body message then
    let headers := Options.headers options in
    Options.mk (Options.method options)
      (if negb (JS.truthy_opt (headers !! "Content-Type"))
       then JS.obj_set "Content-Type" "application/json" headers
       else headers)
      (WebviewMessage.body message)
  else options.

(** The [options] handed to [fetch] (lines 309-329). *)
Definition makeRequest_options (message : WebviewMessage.t) : Options.t :=
  let headers := default ∅ (WebviewMessage.headers message) in
  attach_body message
    (Options.mk (WebviewMessage.method message)
       (apply_auth (WebviewMessage.auth message) headers) None).

(** The libraries and the clock, as the extension sees them. *)
Module World.
Record t : Type := mk {
  (** [new URL(s)] parses [s] or throws: [URL_throws s] is what it throws. *)
  URL_throws : string -> option thrown;
  (** [Date.now()]: the value of the [n]-th reading of the clock. *)
  Date_now : nat -> Z;
  (** The page of the history view, a template over the history
      (lines 187-292). *)
  getWebviewContent : list RequestHistory.t -> string
}.
End World.

Section Extension.

Variable world : World.t.

Definition new_URL (s : string) : completion URL.t :=
  match World.URL_throws world s with
  | Some e => Throw e
  | None => Normal (URL.mk s [])
  end.

(** The [try] block up to the call of [fetch] (lines 303-329): the call
    that is about to be made, or the exception of [new URL]. *)
Definition makeRequest_call (message : WebviewMessage.t)
  : completion FetchCall.t :=
  url ← new_URL (JS.interpolate (WebviewMessage.url message));
  let url :=
    match WebviewMessage.query message with
    | Some query => foldl URL.searchParams_append url (map_to_list query)
    | None => url
    end in
  mret (FetchCall.mk url (makeRequest_options message)).

(** Line 331, [process.env.NODE_TLS_REJECT_UNAUTHORIZED = '0'], the
    statement before [fetch]: reached exactly when the lines above it
    did not throw. *)
Definition makeRequest_env (message : WebviewMessage.t)
    (env : gmap string string) : gmap string string :=
  match makeRequest_call message with
  | Normal _ => <["NODE_TLS_REJECT_UNAUTHORIZED" := "0"]> env
  | Throw _ => env
  end.

(** The [try] block after [fetch] has resolved (lines 333-359). *)
Definition makeRequest_data (startTime endTime : Z) (response : Response.t)
  : completion ResponseData.t :=
  text ← Response.text response;
  let cookies := parseCookies (Response.get_set_cookie response) in
  let headers :=
    foldl (fun headers kv => JS.obj_set kv.1 kv.2 headers) ∅
      (Response.entries response) in
  mret (ResponseData.mk (Response.status response)
          (Response.statusText response) headers text (String.length text)
          (endTime - startTime) cookies).

(** The function from the point where it is resumed: [result] is what
    [await fetch(...)] comes to. *)
Definition makeRequest_resume (startTime endTime : Z)
    (result : completion Response.t) : completion ResponseData.t :=
  try_catch
    (response ← result; makeRequest_data startTime endTime response)
    (fun error => mret (makeRequest_catch startTime endTime error)).

(** The [try] block of the whole function, for a transport [fetch] that
    answers at once: [startTime] and [endTime] are the two readings of
    the clock. *)
Definition makeRequest_try (fetch : FetchCall.t -> completion Response.t)
    (startTime endTime : Z) (message : WebviewMessage.t)
  : completion ResponseData.t :=
  call ← makeRequest_call message;
  response ← fetch call;
  makeRequest_data startTime endTime response.

Definition makeRequest (fetch : FetchCall.t -> completion Response.t)
    (startTime endTime : Z) (message : WebviewMessage.t)
  : completion ResponseData.t :=
  try_catch (makeRequest_try fetch startTime endTime message)
    (fun error => mret (makeRequest_catch startTime endTime error)).

(** ** The event loop

    One state for the extension host: the process environment, the
    clock, the history provider with its view, the open panels, and the
    requests that are waiting for the transport. *)

(** Where a request was submitted: the history view
    ([RestExplorerViewProvider]) or one of the panels of
    [createNewRequestPanel]. *)
Inductive Origin : Type :=
| HistoryView
| RequestPanel (panel : nat).

(** A call of [makeRequest] suspended at [await fetch(...)]. *)
Record Pending : Type := mkPending {
  origin : Origin;
  pending_url : string;
  pending_method : string;
  startTime : Z;
  call : FetchCall.t
}.

(** The view of the provider: its page and the messages posted to it. *)
Record WebviewView : Type := mkWebviewView {
  html : string;
  view_posted : list ResponseData.t
}.

Record State : Type := mkState {
  env : gmap string string;
  clock : nat;
  _view : option WebviewView;
  _history : list RequestHistory.t;
  currentPanels : list nat;
  panels_created : nat;
  panel_posted : list (nat * ResponseData.t);
  opened : list string;
  fetched : list FetchCall.t;
  pending : gmap nat Pending;
  requests_started : nat
}.

Definition set_env (f : gmap string string -> gmap string string) (s : State) : State :=
  mkState (f (env s)) (clock s) (_view s) (_history s) (currentPanels s)
    (panels_created s) (panel_posted s) (opened s) (fetched s) (pending s)
    (requests_started s).

Definition tick (s : State) : State :=
  mkState (env s) (S (clock s)) (_view s) (_history s) (currentPanels s)
    (panels_created s) (panel_posted s) (opened s) (fetched s) (pending s)
    (requests_started s).

Definition set_view (v : option WebviewView) (s : State) : State :=
  mkState (env s) (clock s) v (_history s) (currentPanels s)
    (panels_created s) (panel_posted s) (opened s) (fetched s) (pending s)
    (requests_started s).

Definition push_history (h : RequestHistory.t) (s : State) : State :=
  mkState (env s) (clock s) (_view s) (_history s ++ [h]) (currentPanels s)
    (panels_created s) (panel_posted s) (opened s) (fetched s) (pending s)
    (requests_started s).

Definition set_panels (l : list nat) (created : nat) (s : State) : State :=
  mkState (env s) (clock s) (_view s) (_history s) l created
    (panel_posted s) (opened s) (fetched s) (pending s) (requests_started s).

Definition post_to_panel (panel : nat) (d : ResponseData.t) (s : State) : State :=
  mkState (env s) (clock s) (_view s) (_history s) (currentPanels s)
    (panels_created s) (panel_posted s ++ [(panel, d)]) (opened s) (fetched s)
    (pending s) (requests_started s).

Definition open_external (url : string) (s : State) : State :=
  mkState (env s) (clock s) (_view s) (_history s) (currentPanels s)
    (panels_created s) (panel_posted s) (opened s ++ [url]) (fetched s)
    (pending s) (requests_started s).

Definition suspend (p : Pending) (s : State) : State :=
  mkState (env s) (clock s) (_view s) (_history s) (currentPanels s)
    (panels_created s) (panel_posted s) (opened s) (fetched s ++ [call p])
    (<[requests_started s := p]> (pending s)) (S (requests_started s)).

Definition forget (id : nat) (s : State) : State :=
  mkState (env s) (clock s) (_view s) (_history s) (currentPanels s)
    (panels_created s) (panel_posted s) (opened s) (fetched s)
    (delete id (pending s)) (requests_started s).

(** [_update] (lines 92-96). *)
Definition _update (s : State) : State :=
  match _view s with
  | Some v =>
      let html := World.getWebviewContent world (_history s) in
      set_view (Some (mkWebviewView html (view_posted v))) s
  | None => s
  end.

(** Lines 177-183: [if (this._view) this._view.webview.postMessage(...)]. *)
Definition post_to_view (d : ResponseData.t) (s : State) : State :=
  match _view s with
  | Some v => set_view (Some (mkWebviewView (html v) (view_posted v ++ [d]))) s
  | None => s
  end.

(** The callback given to [.then] (lines 65-74). *)
Definition on_fulfilled (url method : string) (response : ResponseData.t)
    (s : State) : State :=
  let timestamp := World.Date_now world (clock s) in
  let newHistory := RequestHistory.mk url method timestamp response in
  _update (push_history newHistory (tick s)).

(** What follows once [makeRequest] has settled with [result]: for the
    history view the end of the method (lines 177-184) and the [.then]
    callback, which a rejected promise skips; for a panel lines
    405-412, where a rejection goes to [console.error]. *)
Definition settle (o : Origin) (url method : string)
    (result : completion ResponseData.t) (s : State) : State :=
  match result with
  | Normal response =>
      match o with
      | HistoryView => on_fulfilled url method response (post_to_view response s)
      | RequestPanel panel => post_to_panel panel response s
      end
  | Throw _ => s
  end.

(** A call of [makeRequest] from a handler, run up to its first
    [await]: a request that throws before [fetch] settles in the same
    turn, any other is suspended. *)
Definition submit (o : Origin) (message : WebviewMessage.t)
    (url method : string) (s : State) : State :=
  let startTime := World.Date_now world (clock s) in
  let s := tick s in
  match makeRequest_call message with
  | Normal call =>
      suspend (mkPending o url method startTime call)
        (set_env (makeRequest_env message) s)
  | Throw error =>
      let endTime := World.Date_now world (clock s) in
      settle o url method
        (makeRequest_resume startTime endTime (Throw error)) (tick s)
  end.

(** [createNewRequestPanel] (lines 381-421): the new panel joins
    [currentPanels]. Its page and the command that closes the bottom
    pane of the editor are left to the host. *)
Definition createNewRequestPanel (s : State) : State :=
  set_panels (currentPanels s ++ [panels_created s]) (S (panels_created s)) s.

(** The [onDidDispose] callback (lines 393-398): [indexOf] and
    [splice] take out the first occurrence. *)
Fixpoint remove_first (panel : nat) (l : list nat) : list nat :=
  match l with
  | [] => []
  | x :: l' => if Nat.eqb x panel then l' else x :: remove_first panel l'
  end.

(** The handler of the history view (lines 61-86). *)
Definition RestExplorerViewProvider_onDidReceiveMessage
    (message : WebviewMessage.t) (s : State) : State :=
  let command := WebviewMessage.command message in
  if String.eqb command "makeRequest" then
    match WebviewMessage.url message, WebviewMessage.method message with
    | Some url, Some method =>
        if JS.truthy url && JS.truthy method
        then submit HistoryView message url method s
        else s
    | _, _ => s
    end
  else if String.eqb command "openLink" then
    match WebviewMessage.url message with
    | Some url => if JS.truthy url then open_external url s else s
    | None => s
    end
  else if String.eqb command "startNewRequest" then createNewRequestPanel s
  else s.

(** The handler of a panel (lines 402-414). *)
Definition createNewRequestPanel_onDidReceiveMessage (panel : nat)
    (message : WebviewMessage.t) (s : State) : State :=
  if String.eqb (WebviewMessage.command message) "makeRequest" then
    match WebviewMessage.url message, WebviewMessage.method message with
    | Some url, Some method =>
        if JS.truthy url && JS.truthy method
        then submit (RequestPanel panel) message url method s
        else s
    | _, _ => s
    end
  else s.

(** What the event loop can be handed. *)
Inductive Event : Type :=
| ResolveWebviewView
| Message (o : Origin) (message : WebviewMessage.t)
| NewRequestCommand
| PanelDisposed (panel : nat)
| FetchSettled (id : nat) (result : completion Response.t).

Definition step (s : State) (e : Event) : State :=
  match e with
  | ResolveWebviewView => _update (set_view (Some (mkWebviewView "" [])) s)
  | Message HistoryView message =>
      RestExplorerViewProvider_onDidReceiveMessage message s
  | Message (RequestPanel panel) message =>
      createNewRequestPanel_onDidReceiveMessage panel message s
  | NewRequestCommand => createNewRequestPanel s
  | PanelDisposed panel =>
      set_panels (remove_first panel (currentPanels s)) (panels_created s) s
  | FetchSettled id result =>
      match pending s !! id with
      | Some p =>
          let endTime := World.Date_now world (clock s) in
          settle (origin p) (pending_url p) (pending_method p)
            (makeRequest_resume (startTime p) endTime result)
            (tick (forget id s))
      | None => s
      end
  end.

Definition run (s : State) (events : list Event) : State :=
  foldl step s events.

(** The state at activation, for a process environment [env0]. *)
Definition activate (env0 : gmap string string) : State :=
  mkState env0 0 None [] [] 0 [] [] [] ∅ 0.

End Extension.

(** ** Header names on the wire

    The names of HTTP header fields compare without regard to the case
    of their letters; the objects of the code compare keys exactly. *)




(** ** Notions used to state the properties of the event loop *)

(** The switch that turns off the validation of TLS certificates for
    the whole process, as Node reads it. *)
Definition tls_flag (s : State) : option string :=
  env s !! "NODE_TLS_REJECT_UNAUTHORIZED".

(** A message that makes a handler call [makeRequest] and whose request
    reaches [fetch]: the command is [makeRequest], [url] and [method]
    are present and not empty, and the URL parses. *)
Definition submits (world : World.t) (message : WebviewMessage.t)
    (url method : string) : Prop :=
  WebviewMessage.command message = "makeRequest"
  /\ WebviewMessage.url message = Some url /\ url <> ""
  /\ WebviewMessage.method message = Some method /\ method <> ""
  /\ World.URL_throws world url = None.

(** ** Sample data for the worked examples *)

Module Sample.

(** A [URL] that accepts what starts with [http://] or [https://] and
    throws the [TypeError] of Node for the rest. *)
Definition URL_throws (s : string) : option thrown :=
  if String.prefix "http://" s || String.prefix "https://" s then None
  else Some (ThrownError "Invalid URL").

(** A clock that starts at 1000 and advances by 7 at each reading. *)
Definition Date_now (n : nat) : Z := (1000 + 7 * Z.of_nat n)%Z.

(** A page that only tells how many entries it lists. *)
Definition getWebviewContent (history : list RequestHistory.t) : string :=
  String.concat "" (List.map (fun _ => "<div class=history-item>") history).

Definition no_auth : Auth.t := Auth.mk "none" None None None.

(** A request [method url] with a body, no headers and no
    authentication. *)
Definition request (method url body : string) : WebviewMessage.t :=
  WebviewMessage.mk "makeRequest" (Some url) (Some method) (Some ∅) (Some body)
    (Some ∅) (Some no_auth).

(** The same with headers and authentication. *)
Definition request_with (method url body : string)
    (headers : gmap string string) (auth : Auth.t) : WebviewMessage.t :=
  WebviewMessage.mk "makeRequest" (Some url) (Some method) (Some headers)
    (Some body) (Some ∅) (Some auth).

(** A response [200 OK] with a text body and no headers. *)
Definition ok (text : string) : completion Response.t :=
  Normal (Response.mk 200 "OK" None [] (Normal text)).

Definition world : World.t := World.mk URL_throws Date_now getWebviewContent.

End Sample.

(** ** UTF-8 read back (RFC 3629)

    The decoder of the standard for the code points below 256: one byte
    below 128, or the lead byte [C2] or [C3] and one continuation
    byte. *)

Module RFC3629.

Fixpoint decode (bytes : list N) : option string :=
  match bytes with
  | [] => Some EmptyString
  | b :: rest =>
      if (b <? 128)%N then String (ascii_of_N b) <$> decode rest
      else
        match rest with
        | c :: rest' =>
            if ((b =? 194)%N || (b =? 195)%N) && (128 <=? c)%N && (c <? 192)%N
            then String (ascii_of_N (N.lor (N.shiftl (N.land b 3) 6) (N.land c 63)))
                   <$> decode rest'
            else None
        | [] => None
        end
  end.

End RFC3629.

(** The test on one code unit behind the round trip of [Buffer.from]. *)
Definition utf8_reads_back (n : N) : bool :=
  (n <? 128)%N
  || (let b := N.lor 192 (N.shiftr n 6) in
      let c := N.lor 128 (N.land n 63) in
      negb (b <? 128)%N
      && ((b =? 194)%N || (b =? 195)%N) && (128 <=? c)%N && (c <? 192)%N
      && (N.lor (N.shiftl (N.land b 3) 6) (N.land c 63) =? n)%N).

(** ** Notions used to state the properties of runs *)

(** The readings of the clock that a state holds are past readings: the
    start of each request that waits, and the time stamp of each entry
    of the history, whose responses took no negative time and which
    stand in the order of their time stamps. *)
Definition clock_respected (world : World.t) (s : State) : Prop :=
  (forall id p, pending s !! id = Some p ->
     exists k, k < clock s /\ startTime p = World.Date_now world k)
  /\ (forall h, h ∈ _history s ->
        (exists k, k < clock s /\ RequestHistory.timestamp h = World.Date_now world k)
        /\ (0 <= ResponseData.time (RequestHistory.response h))%Z)
  /\ (forall i j hi hj,
        i <= j -> _history s !! i = Some hi -> _history s !! j = Some hj ->
        (RequestHistory.timestamp hi <= RequestHistory.timestamp hj)%Z).

(** ** The tables of the request panel (lines 689-716, 838-903, 929-977)

    A row of the query table or of the header table is a check box and
    two text boxes; each text box carries its placeholder text
    ([data-default]) and the mark [userModified] of its [dataset]. *)

Module Input.
Record t : Type := mk {
  value : string;
  default : string;
  userModified : bool
}.
End Input.

Module ParamRow.
Record t : Type := mk {
  checkbox : bool;
  keyInput : Input.t;
  valueInput : Input.t
}.
End ParamRow.

(** The box of a row an event is about. *)
Inductive Box : Type := KeyBox | ValueBox.

Definition box_of (box : Box) (row : ParamRow.t) : Input.t :=
  match box with
  | KeyBox => ParamRow.keyInput row
  | ValueBox => ParamRow.valueInput row
  end.

Definition with_box (box : Box) (f : Input.t -> Input.t) (row : ParamRow.t)
  : ParamRow.t :=
  match box with
  | KeyBox =>
      ParamRow.mk (ParamRow.checkbox row) (f (ParamRow.keyInput row))
        (ParamRow.valueInput row)
  | ValueBox =>
      ParamRow.mk (ParamRow.checkbox row) (ParamRow.keyInput row)
        (f (ParamRow.valueInput row))
  end.

(** The three listeners of [setupTextboxBehavior] (lines 955-977). *)
Definition on_focus (textbox : Input.t) : Input.t :=
  if negb (Input.userModified textbox)
  then Input.mk "" (Input.default textbox) (Input.userModified textbox)
  else textbox.

Definition on_blur (textbox : Input.t) : Input.t :=
  if negb (JS.truthy (Input.value textbox)) && negb (Input.userModified textbox)
  then Input.mk (Input.default textbox) (Input.default textbox)
         (Input.userModified textbox)
  else textbox.

(** The user has made the text [v]; the listener marks the box. *)
Definition on_input (v : string) (textbox : Input.t) : Input.t :=
  Input.mk v (Input.default textbox) true.

(** The row that [handleParamInput] appends (lines 941-949). *)
Definition new_row (isQuery : bool) : ParamRow.t :=
  let keyVal := if isQuery then "parameter" else "header" in
  let valueVal := if isQuery then "value" else "text value" in
  ParamRow.mk false (Input.mk keyVal keyVal false) (Input.mk valueVal valueVal false).

(** [handleParamInput(input, isQuery)] (lines 929-953), for the box
    [box] of the row at [index] of the table [rows]. *)
Definition handleParamInput (isQuery : bool) (index : nat) (box : Box)
    (rows : list ParamRow.t) : list ParamRow.t :=
  match rows !! index with
  | Some row =>
      if JS.truthy (Input.value (box_of box row)) then
        let rows :=
          <[index := ParamRow.mk true (ParamRow.keyInput row) (ParamRow.valueInput row)]>
            rows in
        if Nat.eqb (S index) (length rows) then (rows ++ [new_row isQuery])%list
        else rows
      else rows
  | None => rows
  end.

(** An [input] event on a text box: the listener of the box, then the
    listener of the table (lines 862-872). *)
Definition input_event (isQuery : bool) (index : nat) (box : Box) (v : string)
    (rows : list ParamRow.t) : list ParamRow.t :=
  handleParamInput isQuery index box
    (alter (with_box box (on_input v)) index rows).

(** A [change] event on a check box the user has clicked (lines
    875-901): a row that is unticked goes back to its placeholders. *)
Definition change_event (index : nat) (rows : list ParamRow.t)
  : list ParamRow.t :=
  alter (fun row =>
           if ParamRow.checkbox row then
             let reset textbox :=
               Input.mk (Input.default textbox) (Input.default textbox) false in
             ParamRow.mk false (reset (ParamRow.keyInput row))
               (reset (ParamRow.valueInput row))
           else
             ParamRow.mk true (ParamRow.keyInput row) (ParamRow.valueInput row))
    index rows.

Definition focus_event (index : nat) (box : Box) (rows : list ParamRow.t)
  : list ParamRow.t :=
  alter (with_box box on_focus) index rows.

Definition blur_event (index : nat) (box : Box) (rows : list ParamRow.t)
  : list ParamRow.t :=
  alter (with_box box on_blur) index rows.

(** What [sendRequest] reads off a row (lines 986-988). *)
Definition row_read (row : ParamRow.t) : Row.t :=
  Row.mk (ParamRow.checkbox row) (Input.value (ParamRow.keyInput row))
    (Input.value (ParamRow.valueInput row)).

(** The tables as the page is loaded (lines 689-716). *)
Definition initial_query_rows : list ParamRow.t :=
  [ParamRow.mk true (Input.mk "parameter" "parameter" false)
     (Input.mk "value" "value" false)].


(** What the user can do to a table. *)
Inductive TableEvent : Type :=
| Focus (index : nat) (box : Box)
| Blur (index : nat) (box : Box)
| Typed (index : nat) (box : Box) (v : string)
| Clicked (index : nat).

Definition table_step (isQuery : bool) (rows : list ParamRow.t) (e : TableEvent)
  : list ParamRow.t :=
  match e with
  | Focus index box => focus_event index box rows
  | Blur index box => blur_event index box rows
  | Typed index box v => input_event isQuery index box v rows
  | Clicked index => change_event index rows
  end.

(** ** The response pane of the request panel (lines 1034-1069) *)

From stdpp Require pretty.

(** The texts [updateResponsePanel] writes: the [textContent] of four
    elements and the [innerHTML] of two tables. *)
Module ResponsePane.
Record t : Type := mk {
  responseStatus : string;
  responseSize : string;
  responseTime : string;
  responseBody : string;
  headersTable : string;
  cookiesTable : string
}.
End ResponsePane.

(** A number in front of [+ ' ...']: the decimal digits of an integer
    (of one below 10^21 in size, which is where JavaScript changes to
    the exponent form). *)
Definition Number_toString (n : Z) : string := pretty.pretty n.

(** The markup of a table of names and values (lines 1058-1061);
    [Object.entries] lists the object in an order that is not
    modelled. *)
Definition table_markup (o : gmap string string) : string :=
  "<tr><th>Name</th><th>Value</th></tr>"
  ++ String.concat ""
       ((fun kv : string * string =>
           "<tr><td>" ++ kv.1 ++ "</td><td>" ++ kv.2 ++ "</td></tr>")
          <$> map_to_list o).

Definition updateResponsePanel (data : ResponseData.t) : ResponsePane.t :=
  ResponsePane.mk
    (Number_toString (ResponseData.status data) ++ " " ++ ResponseData.statusText data)
    (Number_toString (Z.of_nat (ResponseData.size data)) ++ " bytes")
    (Number_toString (ResponseData.time data) ++ "ms")
    (if Z.eqb (ResponseData.status data) 0
     then "Error: " ++ ResponseData.body data
     else ResponseData.body data)
    (table_markup (ResponseData.headers data))
    (table_markup (ResponseData.cookies data)).

(** ** Links in the history view

    [getWebviewContent] (lines 187-292) shows the body of every response
    of the history after
    [body.replace(/(https?:\/\/[^\s]+)/g, '<span ...>$1</span>')]
    (lines 266-269).  The text is put in the page as it is: the only
    change is the [span] around what the pattern matches. *)

(** [[^\s]*] at the start of [s]: the characters before the first white
    space. *)
Fixpoint non_space_run (s : string) : string :=
  match s with
  | EmptyString => EmptyString
  | String c s' => if JS.is_white_space c then EmptyString else String c (non_space_run s')
  end.

(** What follows [p] in [s], when [s] starts with [p]. *)
Fixpoint starts_with (p s : string) : option string :=
  match p, s with
  | EmptyString, _ => Some s
  | String a p', String c s' => if Ascii.eqb a c then starts_with p' s' else None
  | String _ _, EmptyString => None
  end.

(** The pattern after a scheme: one character or more that are not white
    space, as many as there are. *)
Definition link_after (scheme : string) (s : string) : option string :=
  match starts_with scheme s with
  | Some rest =>
      match non_space_run rest with
      | EmptyString => None
      | run => Some (scheme ++ run)
      end
  | None => None
  end.

(** The match of [/https?:\/\/[^\s]+/] at the start of [s].  The pattern
    is tried with the [s] first and without it next; the letters are
    compared as they are, small ones only. *)
Definition link_at (s : string) : option string :=
  match link_after "https://" s with
  | Some url => Some url
  | None => link_after "http://" s
  end.

Definition double_quote : string := String (ascii_of_nat 34) EmptyString.

(** The replacement, with [$1] the text matched. *)
Definition link_span (url : string) : string :=
  "<span class=" ++ double_quote ++ "link" ++ double_quote
  ++ " onclick=" ++ double_quote ++ "openLink('" ++ url ++ "')" ++ double_quote
  ++ ">" ++ url ++ "</span>".

(** The replacement of all matches, from left to right: after a match
    the search goes on behind it ([skip] counts the characters of the
    match that are still to pass). *)
Fixpoint replace_links_from (skip : nat) (s : string) : string :=
  match s with
  | EmptyString => EmptyString
  | String c s' =>
      match skip with
      | S n => replace_links_from n s'
      | O =>
          match link_at s with
          | Some url => link_span url ++ replace_links_from (String.length url - 1) s'
          | None => String c (replace_links_from 0 s')
          end
      end
  end.

Definition replace_links (body : string) : string := replace_links_from 0 body.

(** No white space in [s]. *)
Definition no_white_space (s : string) : bool :=
  forallb (fun c => negb (JS.is_white_space c)) (list_ascii_of_string s).

(** No match of the pattern starts anywhere in [s]. *)
Fixpoint no_link_starts (s : string) : bool :=
  match link_at s with
  | Some _ => false
  | None =>
      match s with
      | EmptyString => true
      | String _ s' => no_link_starts s'
      end
  end.


(** * Properties *)

(** ** Strings and objects *)

Lemma truthy_true (s : string) : JS.truthy s = true <-> s <> "".
Proof. destruct s; simpl; split; intros H; try done. Qed.

Lemma obj_set_insert (k v : string) (o : gmap string string) :
  k <> "__proto__" -> JS.obj_set k v o = <[k := v]> o.
Proof. intros Hk. unfold JS.obj_set. destruct (decide _); [done | reflexivity]. Qed.

Lemma split_not_nil (sep : ascii) (s : string) : JS.split sep s <> [].
Proof.
  destruct s as [|c s]; simpl; [discriminate|].
  destruct (Ascii.eqb c sep); [discriminate|].
  destruct (JS.split sep s); discriminate.
Qed.

(** A string without the separator is its own single piece. *)
Lemma split_singleton (sep : ascii) (s piece : string) :
  JS.split sep s = [piece] -> piece = s.
Proof.
  revert piece. induction s as [|c s IH]; simpl; intros piece H.
  - congruence.
  - destruct (Ascii.eqb c sep).
    + inversion H as [[H1 H2]]. exfalso. exact (split_not_nil _ _ H2).
    + destruct (JS.split sep s) as [|p ps] eqn:E;
        [exfalso; exact (split_not_nil _ _ E)|].
      inversion H; subst. f_equal. apply IH. reflexivity.
Qed.

(** [split] cuts at the first separator and goes on with the rest. *)
Lemma split_split_first (sep : ascii) (s : string) :
  match split_first sep s with
  | Some (a, b) => JS.split sep s = a :: JS.split sep b
  | None => JS.split sep s = [s]
  end.
Proof.
  induction s as [|c s IH]; simpl; [reflexivity|].
  destruct (Ascii.eqb c sep); [reflexivity|].
  destruct (split_first sep s) as [[a b]|]; rewrite IH; reflexivity.
Qed.

Lemma trim_truthy (s : string) : JS.truthy (JS.trim s) = true -> JS.truthy s = true.
Proof. destruct s; simpl; [discriminate | reflexivity]. Qed.

(** ** Cookies *)

(** On a plain segment the code and the words of the specification do
    the same to the object. *)
Lemma cookie_step_plain (cookies : gmap string string) (segment : string) :
  plain_segment segment = true ->
  cookie_step cookies segment = spec_cookie_step cookies segment.
Proof.
  unfold plain_segment, cookie_step, spec_cookie_step.
  pose proof (split_split_first "="%char segment) as Hs.
  destruct (split_first "="%char segment) as [[a b]|].
  - rewrite Hs.
    destruct (JS.split "="%char b) as [|v [|w rest]] eqn:Eb.
    + intros _. exfalso. exact (split_not_nil _ _ Eb).
    + apply split_singleton in Eb. subst v.
      intros H. apply andb_prop in H as [H Hp]. apply andb_prop in H as [Ha Hb].
      apply negb_true_iff, String.eqb_neq in Hp.
      rewrite obj_set_insert by exact Hp.
      destruct (JS.truthy a) eqn:Ta, (JS.truthy b) eqn:Tb; simpl in *.
      * rewrite Ha, Hb. reflexivity.
      * destruct (JS.truthy (JS.trim b)) eqn:Tb'.
        -- apply trim_truthy in Tb'. congruence.
        -- rewrite andb_false_r. reflexivity.
      * destruct (JS.truthy (JS.trim a)) eqn:Ta'.
        -- apply trim_truthy in Ta'. congruence.
        -- reflexivity.
      * destruct (JS.truthy (JS.trim a)) eqn:Ta'.
        -- apply trim_truthy in Ta'. congruence.
        -- reflexivity.
    + discriminate.
  - rewrite Hs. reflexivity.
Qed.

Lemma foldl_cookie_step_plain (segments : list string) (cookies : gmap string string) :
  forallb plain_segment segments = true ->
  foldl cookie_step cookies segments = foldl spec_cookie_step cookies segments.
Proof.
  revert cookies. induction segments as [|seg segments IH]; simpl; intros cookies H.
  - reflexivity.
  - apply andb_prop in H as [H1 H2].
    rewrite cookie_step_plain by exact H1. apply IH. exact H2.
Qed.

Lemma parseCookies_plain (h : option string) :
  (forall v, h = Some v -> forallb plain_segment (JS.split ";"%char v) = true) ->
  parseCookies h = spec_parseCookies h.
Proof.
  intros H. destruct h as [v|]; [|reflexivity].
  unfold parseCookies, spec_parseCookies.
  destruct v as [|c v]; [reflexivity|]. simpl JS.truthy. cbv iota.
  apply foldl_cookie_step_plain. apply H. reflexivity.
Qed.

(** The code does to the object what the amended words say. *)
Lemma cookie_step_amended (cookies : gmap string string) (segment : string) :
  cookie_step cookies segment = amended_cookie_step cookies segment.
Proof.
  unfold cookie_step, amended_cookie_step, up_to.
  pose proof (split_split_first "="%char segment) as Hs.
  destruct (split_first "="%char segment) as [[name rest]|]; rewrite Hs;
    [|reflexivity].
  pose proof (split_split_first "="%char rest) as Hr.
  destruct (split_first "="%char rest) as [[value rest']|]; rewrite Hr; reflexivity.
Qed.

Lemma parseCookies_amended (h : option string) :
  parseCookies h = amended_parseCookies h.
Proof.
  destruct h as [v|]; [|reflexivity]. unfold parseCookies, amended_parseCookies.
  destruct v as [|c v]; [reflexivity|]. simpl JS.truthy. cbv iota.
  generalize (∅ : gmap string string).
  induction (JS.split ";"%char (String c v)) as [|seg segs IH]; intros o;
    [reflexivity|].
  simpl. rewrite cookie_step_amended. apply IH.
Qed.

(** The two readings part on a second [=] sign: the code keeps what
    stands between the first and the second, the specification what
    follows the first. A value in base64 loses its padding. *)
Lemma cookies_second_equals_sign :
  let response :=
    Response.mk 200 "OK" (Some "session=dG9rZW4=; Path=/")
      [("set-cookie", "session=dG9rZW4=; Path=/")] (Normal "ok") in
  exists data,
    makeRequest_data 10 25 response = Normal data
    /\ ResponseData.cookies data = {[ "session" := "dG9rZW4"; "Path" := "/" ]}
    /\ spec_parseCookies (Response.get_set_cookie response)
       = {[ "session" := "dG9rZW4="; "Path" := "/" ]}
    /\ ResponseData.cookies data
       <> spec_parseCookies (Response.get_set_cookie response).
Proof.
  intros response. eexists. split; [reflexivity|].
  split; [vm_compute; reflexivity|]. split; [vm_compute; reflexivity|].
  intros H. apply (f_equal (fun m : gmap string string => m !! "session")) in H.
  vm_compute in H. discriminate.
Qed.

(** They part as well on a name or a value of white space only: the
    code tests for emptiness before it trims. *)
Lemma cookies_blank_name_kept :
  parseCookies (Some "a=1; =x") = {[ "a" := "1"; "" := "x" ]}
  /\ spec_parseCookies (Some "a=1; =x") = {[ "a" := "1" ]}.
Proof. split; vm_compute; reflexivity. Qed.

(** And on the name [__proto__], which an object literal does not take
    as a property. *)
Lemma cookies_proto_not_stored :
  parseCookies (Some "a=1; __proto__=x") = {[ "a" := "1" ]}
  /\ spec_parseCookies (Some "a=1; __proto__=x") = {[ "a" := "1"; "__proto__" := "x" ]}.
Proof. split; vm_compute; reflexivity. Qed.

(** C2 (amended). The cookies of a normalised response are read from the
    [Set-Cookie] header alone, as one string split on [;]; each segment
    is cut at its [=] signs and the first two pieces are the name and
    the value; a segment without [=], or whose name or value is empty
    before trimming, is dropped, and the two are stored trimmed.
    Whenever each segment has at most one [=], no name or value made of
    white space only and no name [__proto__], this is what the
    specification says: each segment split on its first [=], the
    segments without [=] or with an empty name or value after trimming
    dropped. In particular the header [a=1; b=2; Path=/] gives
    [{a: "1", b: "2", Path: "/"}]. *)
Theorem cookies_of_set_cookie_header
    (startTime endTime : Z) (response : Response.t) (data : ResponseData.t) :
  makeRequest_data startTime endTime response = Normal data ->
  ResponseData.cookies data
  = amended_parseCookies (Response.get_set_cookie response)
  /\ ((forall h, Response.get_set_cookie response = Some h ->
         forallb plain_segment (JS.split ";"%char h) = true) ->
      ResponseData.cookies data
      = spec_parseCookies (Response.get_set_cookie response))
  /\ (Response.get_set_cookie response = Some "a=1; b=2; Path=/" ->
      ResponseData.cookies data = {[ "a" := "1"; "b" := "2"; "Path" := "/" ]}).
Proof.
  unfold makeRequest_data. intros H.
  destruct (Response.text response) as [text|e]; [|discriminate].
  injection H as <-. simpl. split; [apply parseCookies_amended|]. split.
  - intros Hplain. apply parseCookies_plain. exact Hplain.
  - intros ->. vm_compute. reflexivity.
Qed.

Lemma cookies_of_set_cookie_header_witness :
  let response :=
    Response.mk 200 "OK" (Some "a=1; b=2; Path=/")
      [("set-cookie", "a=1; b=2; Path=/")] (Normal "ok") in
  let data :=
    ResponseData.mk 200 "OK" {[ "set-cookie" := "a=1; b=2; Path=/" ]} "ok" 2 15
      {[ "a" := "1"; "b" := "2"; "Path" := "/" ]} in
  makeRequest_data 10 25 response = Normal data
  /\ ResponseData.cookies data
     = amended_parseCookies (Response.get_set_cookie response)
  /\ ResponseData.cookies data = spec_parseCookies (Response.get_set_cookie response)
  /\ ResponseData.cookies data = {[ "a" := "1"; "b" := "2"; "Path" := "/" ]}.
Proof.
  intros response data.
  assert (H : makeRequest_data 10 25 response = Normal data)
    by (vm_compute; reflexivity).
  split; [exact H|].
  destruct (cookies_of_set_cookie_header 10 25 response data H) as (H0 & H1 & H2).
  split; [exact H0|]. split.
  - apply H1. intros h Hh. injection Hh as <-. vm_compute. reflexivity.
  - apply H2. reflexivity.
Defined.

(** ** Base64 *)

(** The test vectors of RFC 4648, section 10. *)
Example base64_rfc4648 :
  List.map base64 [""; "f"; "fo"; "foo"; "foob"; "fooba"; "foobar"]
  = [""; "Zg=="; "Zm8="; "Zm9v"; "Zm9vYg=="; "Zm9vYmE="; "Zm9vYmFy"].
Proof. vm_compute. reflexivity. Qed.

Lemma forallb_below (n : nat) (P : N -> bool) :
  forallb P (List.map N.of_nat (seq 0 n)) = true ->
  forall x, (x < N.of_nat n)%N -> P x = true.
Proof.
  intros H x Hx. rewrite forallb_forall in H. apply H.
  apply in_map_iff. exists (N.to_nat x). split; [lia|].
  apply in_seq. lia.
Qed.

Lemma value_digit (x : N) :
  (x < 64)%N -> RFC4648.value (Buffer.digit x) = Some x.
Proof.
  intros Hx.
  pose proof (forallb_below 64
    (fun x => match RFC4648.value (Buffer.digit x) with
              | Some y => N.eqb y x
              | None => false
              end)) as H.
  specialize (H ltac:(vm_compute; reflexivity) x Hx). simpl in H.
  destruct (RFC4648.value (Buffer.digit x)) as [y|]; [|discriminate].
  apply N.eqb_eq in H. congruence.
Qed.

Lemma pairs_below (P : N -> N -> bool) :
  forallb (fun a => forallb (P a) (List.map N.of_nat (seq 0 256)))
    (List.map N.of_nat (seq 0 256)) = true ->
  forall a b, (a < 256)%N -> (b < 256)%N -> P a b = true.
Proof.
  intros H a b Ha Hb.
  apply (forallb_below 256 (P a)); [|exact Hb].
  exact (forallb_below 256 _ H a Ha).
Qed.

Lemma first_pair_ok (a b : N) : (a < 256)%N -> (b < 256)%N -> first_pair a b = true.
Proof. apply pairs_below. vm_compute. reflexivity. Qed.

Lemma second_pair_ok (b c : N) : (b < 256)%N -> (c < 256)%N -> second_pair b c = true.
Proof. apply pairs_below. vm_compute. reflexivity. Qed.

Lemma value_pad : RFC4648.value "="%char = None.
Proof. reflexivity. Qed.

Lemma decode_encode_group (a b c : N) (rest : list N) :
  (a < 256)%N -> (b < 256)%N -> (c < 256)%N ->
  RFC4648.decode (Buffer.toString_base64 (a :: b :: c :: rest))
  = match RFC4648.decode (Buffer.toString_base64 rest) with
    | Some bytes => Some (a :: b :: c :: bytes)
    | None => None
    end.
Proof.
  intros Ha Hb Hc.
  pose proof (first_pair_ok a b Ha Hb) as H1.
  pose proof (second_pair_ok b c Hb Hc) as H2.
  unfold first_pair in H1. unfold second_pair in H2.
  repeat (apply andb_prop in H1 as [H1 ?]). repeat (apply andb_prop in H2 as [H2 ?]).
  repeat match goal with
         | H : (_ <? _)%N = true |- _ => apply N.ltb_lt in H
         | H : (_ =? _)%N = true |- _ => apply N.eqb_eq in H
         end.
  cbn [Buffer.toString_base64 RFC4648.decode].
  rewrite !value_digit by assumption.
  cbv zeta.
  match goal with H : N.land _ 15 = _ |- _ => rewrite H end.
  destruct (RFC4648.decode (Buffer.toString_base64 rest)); [|reflexivity].
  congruence.
Qed.

Lemma decode_encode_one (a : N) :
  (a < 256)%N -> RFC4648.decode (Buffer.toString_base64 [a]) = Some [a].
Proof.
  intros Ha.
  pose proof (first_pair_ok a 0 Ha ltac:(lia)) as H1. unfold first_pair in H1.
  repeat (apply andb_prop in H1 as [H1 ?]).
  repeat match goal with
         | H : (_ <? _)%N = true |- _ => apply N.ltb_lt in H
         | H : (_ =? _)%N = true |- _ => apply N.eqb_eq in H
         end.
  rewrite N.shiftr_0_l, N.lor_0_r in *.
  cbn [Buffer.toString_base64 RFC4648.decode].
  rewrite !value_digit by assumption. rewrite value_pad.
  cbv zeta. simpl andb. cbv iota. congruence.
Qed.

Lemma decode_encode_two (a b : N) :
  (a < 256)%N -> (b < 256)%N ->
  RFC4648.decode (Buffer.toString_base64 [a; b]) = Some [a; b].
Proof.
  intros Ha Hb.
  pose proof (first_pair_ok a b Ha Hb) as H1.
  pose proof (second_pair_ok b 0 Hb ltac:(lia)) as H2.
  unfold first_pair in H1. unfold second_pair in H2.
  repeat (apply andb_prop in H1 as [H1 ?]). repeat (apply andb_prop in H2 as [H2 ?]).
  repeat match goal with
         | H : (_ <? _)%N = true |- _ => apply N.ltb_lt in H
         | H : (_ =? _)%N = true |- _ => apply N.eqb_eq in H
         end.
  rewrite N.shiftr_0_l, N.lor_0_r in *.
  cbn [Buffer.toString_base64 RFC4648.decode].
  rewrite !value_digit by assumption. rewrite value_pad.
  cbv zeta. simpl andb. cbv iota.
  match goal with H : N.land _ 15 = _ |- _ => rewrite H end.
  congruence.
Qed.

Lemma decode_encode (bytes : list N) :
  Forall (fun b => (b < 256)%N) bytes ->
  RFC4648.decode (Buffer.toString_base64 bytes) = Some bytes.
Proof.
  assert (H : forall l : list N,
             Forall (fun b => (b < 256)%N) l ->
             RFC4648.decode (Buffer.toString_base64 l) = Some l
             /\ (forall x, (x < 256)%N ->
                  RFC4648.decode (Buffer.toString_base64 (x :: l)) = Some (x :: l))
             /\ (forall x y, (x < 256)%N -> (y < 256)%N ->
                  RFC4648.decode (Buffer.toString_base64 (x :: y :: l))
                  = Some (x :: y :: l))).
  { induction l as [|z l IH]; intros Hl.
    - split; [reflexivity|]. split; [apply decode_encode_one | apply decode_encode_two].
    - apply Forall_cons in Hl as [Hz Hl]. destruct (IH Hl) as (H0 & H1 & H2).
      split; [exact (H1 z Hz)|]. split; [intros x Hx; exact (H2 x z Hx Hz)|].
      intros x y Hx Hy. rewrite decode_encode_group by assumption.
      rewrite H0. reflexivity. }
  intros Hb. exact (proj1 (H bytes Hb)).
Qed.

Lemma from_bytes (s : string) : Forall (fun b => (b < 256)%N) (Buffer.from s).
Proof.
  induction s as [|c s IH]; simpl; [constructor|].
  apply Forall_app. split; [|exact IH].
  unfold Buffer.utf8. pose proof (N_ascii_bounded c) as Hc.
  destruct (N_of_ascii c <? 128)%N eqn:E.
  - repeat constructor. lia.
  - pose proof (forallb_below 256
        (fun n => (N.lor 192 (N.shiftr n 6) <? 256)%N
                  && (N.lor 128 (N.land n 63) <? 256)%N)
        ltac:(vm_compute; reflexivity) _ Hc) as H.
    simpl in H. apply andb_prop in H as [H1 H2].
    apply N.ltb_lt in H1, H2. repeat constructor; assumption.
Qed.

(** The text [base64 s] is the base64 encoding of the UTF-8 bytes of
    [s]: the decoder of the standard reads these bytes back from it. *)
Lemma base64_decodes (s : string) :
  RFC4648.decode (base64 s) = Some (Buffer.from s).
Proof. apply decode_encode, from_bytes. Qed.

(** ** The executor *)

Section Executor.

Variable world : World.t.

Lemma makeRequest_call_options (message : WebviewMessage.t) (call : FetchCall.t) :
  makeRequest_call world message = Normal call ->
  FetchCall.options call = makeRequest_options message.
Proof.
  unfold makeRequest_call, new_URL.
  destruct (World.URL_throws world _); simpl; [discriminate|].
  intros H. injection H as <-. reflexivity.
Qed.

(** What the [try] block can fail with: the exception of [new URL], the
    rejection of [fetch], or the rejection of [response.text()]. *)
Lemma makeRequest_try_throws (fetch : FetchCall.t -> completion Response.t)
    (startTime endTime : Z) (message : WebviewMessage.t) (error : thrown) :
  makeRequest_try world fetch startTime endTime message = Throw error ->
  World.URL_throws world (JS.interpolate (WebviewMessage.url message)) = Some error
  \/ (exists call, fetch call = Throw error)
  \/ (exists call response,
        fetch call = Normal response /\ Response.text response = Throw error).
Proof.
  unfold makeRequest_try, makeRequest_call, new_URL.
  destruct (World.URL_throws world _) as [e|]; simpl.
  - intros H. injection H as ->. left. reflexivity.
  - match goal with |- context [fetch ?c] => set (call := c) end.
    destruct (fetch call) as [response|e] eqn:Hf; simpl.
    + unfold makeRequest_data.
      destruct (Response.text response) as [text|e] eqn:Ht; simpl; [discriminate|].
      intros H. injection H as ->. right. right. eauto.
    + intros H. injection H as ->. right. left. eauto.
Qed.

(** C1. [makeRequest] never throws: it always resolves to a record. When
    the [try] block fails (the URL does not parse, [fetch] rejects, or
    the body cannot be read) the record has status 0, status text
    [Error], no headers, no cookies, the message of the error as body,
    and the length of that body as size. The body is not empty: the
    errors of [URL] and of the transport carry a message, which is what
    is supposed of the two libraries, and for a value that is neither an
    [Error] nor a string the code puts a fixed text. *)
Theorem makeRequest_never_throws
    (fetch : FetchCall.t -> completion Response.t)
    (startTime endTime : Z) (message : WebviewMessage.t) :
  exists r,
    makeRequest world fetch startTime endTime message = Normal r
    /\ forall error,
         makeRequest_try world fetch startTime endTime message = Throw error ->
         ResponseData.status r = 0%Z
         /\ ResponseData.statusText r = "Error"
         /\ ResponseData.headers r = ∅
         /\ ResponseData.cookies r = ∅
         /\ ResponseData.body r = errorMessage error
         /\ ResponseData.size r = String.length (ResponseData.body r)
         /\ ResponseData.time r = (endTime - startTime)%Z
         /\ ((forall s e, World.URL_throws world s = Some e -> errorMessage e <> "") ->
             (forall call e, fetch call = Throw e -> errorMessage e <> "") ->
             (forall call response e,
                 fetch call = Normal response ->
                 Response.text response = Throw e -> errorMessage e <> "") ->
             ResponseData.body r <> "").
Proof.
  unfold makeRequest.
  destruct (makeRequest_try world fetch startTime endTime message)
    as [r|e] eqn:Htry; simpl.
  - exists r. split; [reflexivity|]. intros error H. discriminate.
  - exists (makeRequest_catch startTime endTime e). split; [reflexivity|].
    intros error H. injection H as <-.
    repeat (split; [reflexivity|]).
    intros Hurl Hfetch Htext. simpl.
    apply makeRequest_try_throws in Htry as [H|[[call H]|(call & response & H1 & H2)]].
    + exact (Hurl _ _ H).
    + exact (Hfetch _ _ H).
    + exact (Htext _ _ _ H1 H2).
Qed.

End Executor.

(** On a resolver failure for [http://invalid.invalid/]: node-fetch
    rejects with an error whose message names the request and the
    reason. *)
Lemma makeRequest_never_throws_witness :
  let error :=
    ThrownError
      "request to http://invalid.invalid/ failed, reason: getaddrinfo ENOTFOUND invalid.invalid" in
  let fetch := fun _ : FetchCall.t => @Throw Response.t error in
  let message := Sample.request "GET" "http://invalid.invalid/" "" in
  exists r,
    makeRequest Sample.world fetch 100 130 message = Normal r
    /\ ResponseData.status r = 0%Z
    /\ ResponseData.statusText r = "Error"
    /\ ResponseData.headers r = ∅
    /\ ResponseData.cookies r = ∅
    /\ ResponseData.body r = errorMessage error
    /\ ResponseData.size r = String.length (ResponseData.body r)
    /\ ResponseData.time r = 30%Z
    /\ ResponseData.body r <> "".
Proof.
  intros error fetch message.
  destruct (makeRequest_never_throws Sample.world fetch 100 130 message)
    as (r & Hr & H).
  exists r. split; [exact Hr|].
  destruct (H error ltac:(vm_compute; reflexivity))
    as (H1 & H2 & H3 & H4 & H5 & H6 & H7 & H8).
  repeat (split; [assumption|]).
  apply H8.
  - intros s e. simpl. unfold Sample.URL_throws.
    destruct (_ || _); [discriminate|].
    intros He. injection He as <-. discriminate.
  - intros call e He. injection He as <-. discriminate.
  - intros call response e He. discriminate.
Defined.

(** ** The outgoing request *)

Lemma includes_In (l : list string) (x : string) :
  JS.includes l x = true <-> In x l.
Proof.
  unfold JS.includes. rewrite existsb_exists. split.
  - intros (y & Hy & E). apply String.eqb_eq in E. subst. exact Hy.
  - intros H. exists x. split; [exact H | apply String.eqb_refl].
Qed.

Lemma truthy_opt_true (o : option string) :
  JS.truthy_opt o = true <-> exists s, o = Some s /\ s <> "".
Proof.
  destruct o as [s|]; simpl.
  - rewrite truthy_true. split; [eauto | intros (s' & E & H); congruence].
  - split; [discriminate | intros (s' & E & _); discriminate].
Qed.

Lemma sends_body_true (message : WebviewMessage.t) :
  sends_body message = true <->
  (exists m, WebviewMessage.method message = Some m /\ In m ["POST"; "PUT"; "PATCH"])
  /\ (exists b, WebviewMessage.body message = Some b /\ b <> "").
Proof.
  unfold sends_body. rewrite andb_true_iff, truthy_opt_true.
  destruct (WebviewMessage.method message) as [m|].
  - rewrite includes_In. split.
    + intros [H1 H2]. split; [eauto | exact H2].
    + intros [(m' & E & H1) H2]. injection E as <-. split; assumption.
  - split; [intros [H _]; discriminate | intros [(m' & E & _) _]; discriminate].
Qed.

Lemma apply_auth_other (auth : option Auth.t) (headers : gmap string string)
    (name : string) :
  name <> "Authorization" -> apply_auth auth headers !! name = headers !! name.
Proof.
  intros Hne. unfold apply_auth. destruct auth as [a|]; [|reflexivity].
  destruct (String.eqb (Auth.type a) "basic");
    [|destruct (String.eqb (Auth.type a) "bearer")];
    try reflexivity;
    rewrite obj_set_insert by discriminate;
    apply lookup_insert_ne; congruence.
Qed.

Lemma attach_body_other (message : WebviewMessage.t) (options : Options.t)
    (name : string) :
  name <> "Content-Type" ->
  Options.headers (attach_body message options) !! name
  = Options.headers options !! name.
Proof.
  intros Hne. unfold attach_body. destruct (sends_body message); [|reflexivity].
  simpl. destruct (negb _); [|reflexivity].
  rewrite obj_set_insert by discriminate. apply lookup_insert_ne. congruence.
Qed.

Lemma attach_body_body (message : WebviewMessage.t) (options : Options.t) :
  Options.body (attach_body message options)
  = if sends_body message then WebviewMessage.body message else Options.body options.
Proof. unfold attach_body. destruct (sends_body message); reflexivity. Qed.

Section Outgoing.

Variable world : World.t.

(** C3. With basic authentication the request carries
    [Authorization: Basic base64(username:password)], whatever the two
    strings are, the empty one included, and whatever headers the user
    entered. *)
Theorem basic_auth_header (message : WebviewMessage.t) (call : FetchCall.t)
    (username password : string) (token : option string) :
  WebviewMessage.auth message
    = Some (Auth.mk "basic" (Some username) (Some password) token) ->
  makeRequest_call world message = Normal call ->
  Options.headers (FetchCall.options call) !! "Authorization"
  = Some ("Basic " ++ base64 (username ++ ":" ++ password)).
Proof.
  intros Hauth Hcall.
  rewrite (makeRequest_call_options _ _ _ Hcall). unfold makeRequest_options.
  rewrite attach_body_other by discriminate. simpl.
  rewrite Hauth. unfold apply_auth. simpl.
  rewrite obj_set_insert by discriminate. apply lookup_insert_eq.
Qed.

(** C4. A body goes out exactly when the method is POST, PUT or PATCH
    and the body of the message is not empty; with GET, HEAD, DELETE or
    OPTIONS none does, whatever the message holds. *)
Theorem body_only_with_post_put_patch (message : WebviewMessage.t)
    (call : FetchCall.t) :
  makeRequest_call world message = Normal call ->
  (forall m, WebviewMessage.method message = Some m ->
     In m ["GET"; "HEAD"; "DELETE"; "OPTIONS"] ->
     Options.body (FetchCall.options call) = None)
  /\ (forall b, Options.body (FetchCall.options call) = Some b <->
        (exists m, WebviewMessage.method message = Some m
                   /\ In m ["POST"; "PUT"; "PATCH"])
        /\ WebviewMessage.body message = Some b /\ b <> "").
Proof.
  intros Hcall.
  rewrite (makeRequest_call_options _ _ _ Hcall). unfold makeRequest_options.
  rewrite attach_body_body. simpl.
  destruct (sends_body message) eqn:Hs.
  - apply sends_body_true in Hs as [(m & Hm & Hin) (b & Hb & Hne)]. split.
    + intros m' Hm' Hin'. rewrite Hm in Hm'. injection Hm' as <-.
      simpl in Hin, Hin'. exfalso.
      repeat (destruct Hin as [<-|Hin];
              [repeat (destruct Hin' as [Hin'|Hin']; [discriminate|]); exact Hin'|]).
      exact Hin.
    + intros b'. rewrite Hb. split.
      * intros E. injection E as <-. split; [eauto|]. split; [reflexivity | exact Hne].
      * intros (_ & E & _). exact E.
  - split; [reflexivity|]. intros b. split; [discriminate|].
    intros (Hm & Hb & Hne). exfalso.
    assert (sends_body message = true) as E by (apply sends_body_true; eauto).
    congruence.
Qed.

End Outgoing.

(** The rows of a table give an object without empty values. *)
Lemma collect_row_nonempty (o : gmap string string) (row : Row.t) :
  (forall k v, o !! k = Some v -> v <> "") ->
  forall k v, collect_row o row !! k = Some v -> v <> "".
Proof.
  intros Ho k v. unfold collect_row.
  destruct (Row.checked row && JS.truthy (Row.key row) && JS.truthy (Row.value row)) eqn:E;
    [|apply Ho].
  apply andb_prop in E as [_ Hv]. apply truthy_true in Hv.
  unfold JS.obj_set. destruct (decide _); [apply Ho|].
  destruct (decide (Row.key row = k)) as [->|Hne].
  - rewrite lookup_insert_eq. intros H. injection H as <-. exact Hv.
  - rewrite lookup_insert_ne by exact Hne. apply Ho.
Qed.

Lemma collect_nonempty (rows : list Row.t) (k v : string) :
  collect rows !! k = Some v -> v <> "".
Proof.
  unfold collect.
  assert (H : forall o : gmap string string,
             (forall k v, o !! k = Some v -> v <> "") ->
             forall k v, foldl collect_row o rows !! k = Some v -> v <> "").
  { induction rows as [|row rows IH]; simpl; intros o Ho; [exact Ho|].
    apply IH. apply collect_row_nonempty. exact Ho. }
  apply H. intros k' v'. rewrite lookup_empty. discriminate.
Qed.


Section Headers.

Variable world : World.t.

(** C5. When the form sends a body (method POST, PUT or PATCH, body not
    empty) and the ticked header rows hold no [Content-Type], the
    request gains [Content-Type: application/json]. Every header the
    user entered, [Content-Type] in any spelling among them, goes out
    with the value the user gave it; only [Authorization] can be
    replaced, by the authentication chosen. *)
Theorem content_type_default (form : Form.t) (call : FetchCall.t) :
  makeRequest_call world (sendRequest form) = Normal call ->
  In (Form.method form) ["POST"; "PUT"; "PATCH"] ->
  Form.requestBody form <> "" ->
  let user := collect (Form.headerParams form) in
  let out := Options.headers (FetchCall.options call) in
  Options.body (FetchCall.options call) = Some (Form.requestBody form)
  /\ (user !! "Content-Type" = None ->
      out !! "Content-Type" = Some "application/json")
  /\ (forall value, user !! "Content-Type" = Some value ->
      out !! "Content-Type" = Some value)
  /\ (forall name value, user !! name = Some value -> name <> "Authorization" ->
      out !! name = Some value)
  /\ (forall name, name <> "Content-Type" -> name <> "Authorization" ->
      out !! name = user !! name).
Proof.
  intros Hcall Hm Hb user out. subst out.
  rewrite (makeRequest_call_options _ _ _ Hcall). unfold makeRequest_options.
  set (message := sendRequest form).
  assert (Hs : sends_body message = true).
  { apply sends_body_true. split; [exists (Form.method form) | exists (Form.requestBody form)];
      split; (reflexivity || assumption). }
  assert (Hct : forall value, user !! "Content-Type" = Some value ->
            Options.headers
              (attach_body message
                 (Options.mk (WebviewMessage.method message)
                    (apply_auth (WebviewMessage.auth message)
                       (default ∅ (WebviewMessage.headers message))) None))
            !! "Content-Type" = Some value).
  { intros value Hv. unfold attach_body. rewrite Hs.
    cbn [Options.headers Options.method Options.body].
    rewrite !apply_auth_other by discriminate.
    change (default ∅ (WebviewMessage.headers message)) with user.
    rewrite Hv. cbn [JS.truthy_opt].
    assert (JS.truthy value = true) as ->
      by (apply truthy_true; exact (collect_nonempty _ _ _ Hv)).
    cbn [negb]. rewrite apply_auth_other by discriminate. exact Hv. }
  split; [rewrite attach_body_body, Hs; reflexivity|].
  split; [|split; [exact Hct|split]].
  - intros Hnone. unfold attach_body. rewrite Hs.
    cbn [Options.headers Options.method Options.body].
    rewrite !apply_auth_other by discriminate.
    change (default ∅ (WebviewMessage.headers message)) with user.
    rewrite Hnone. cbn [JS.truthy_opt negb].
    rewrite obj_set_insert by discriminate. apply lookup_insert_eq.
  - intros name value Hv Hna.
    destruct (decide (name = "Content-Type")) as [->|Hne]; [exact (Hct _ Hv)|].
    rewrite attach_body_other by exact Hne.
    cbn [Options.headers].
    rewrite apply_auth_other by exact Hna. exact Hv.
  - intros name Hne Hna. rewrite attach_body_other by exact Hne.
    cbn [Options.headers].
    rewrite apply_auth_other by exact Hna. reflexivity.
Qed.


End Headers.

(** Names are keys of an object and are compared as such:
    [content-type] is not the key [Content-Type]. A form that enters
    the header in small letters keeps it and gets the default next to
    it, and likewise for [authorization]. *)
Lemma header_in_small_letters :
  let form :=
    Form.mk "POST" "https://example.test/items" []
      [Row.mk true "content-type" "text/plain"; Row.mk true "authorization" "mine"]
      "bearer" "" "" "t0k3n" "payload" in
  Options.headers (makeRequest_options (sendRequest form))
  = {[ "content-type" := "text/plain"; "Content-Type" := "application/json";
       "authorization" := "mine"; "Authorization" := "Bearer t0k3n" ]}.
Proof. vm_compute. reflexivity. Qed.

(** ** Worked examples of the outgoing request *)

(** Empty user name and empty password: the credentials are the colon
    alone. *)
Lemma basic_auth_header_witness :
  let message :=
    Sample.request_with "GET" "http://example.test/" ""
      {[ "Authorization" := "mine" ]} (Auth.mk "basic" (Some "") (Some "") None) in
  exists call,
    makeRequest_call Sample.world message = Normal call
    /\ Options.headers (FetchCall.options call) !! "Authorization"
       = Some ("Basic " ++ base64 ":")
    /\ base64 ":" = "Og==".
Proof.
  intros message.
  exists (FetchCall.mk (URL.mk "http://example.test/" []) (makeRequest_options message)).
  assert (H : makeRequest_call Sample.world message
              = Normal (FetchCall.mk (URL.mk "http://example.test/" [])
                          (makeRequest_options message)))
    by (vm_compute; reflexivity).
  split; [exact H|]. split; [|vm_compute; reflexivity].
  exact (basic_auth_header Sample.world message _ "" "" None eq_refl H).
Defined.

Lemma body_only_with_post_put_patch_witness :
  let message := Sample.request "DELETE" "http://example.test/item/1" "payload" in
  exists call,
    makeRequest_call Sample.world message = Normal call
    /\ Options.body (FetchCall.options call) = None.
Proof.
  intros message.
  exists (FetchCall.mk (URL.mk "http://example.test/item/1" []) (makeRequest_options message)).
  assert (H : makeRequest_call Sample.world message
              = Normal (FetchCall.mk (URL.mk "http://example.test/item/1" [])
                          (makeRequest_options message)))
    by (vm_compute; reflexivity).
  split; [exact H|].
  destruct (body_only_with_post_put_patch Sample.world message _ H) as [H1 _].
  apply (H1 "DELETE"); [reflexivity | simpl; tauto].
Defined.

(** A form with a ticked [Accept] row and an unticked [Content-Type]
    row: the default is added, [Accept] is kept. *)
Lemma content_type_default_witness :
  let form :=
    Form.mk "POST" "https://example.test/items"
      [] [Row.mk true "Accept" "text/plain"; Row.mk false "Content-Type" "text/xml"]
      "none" "" "" "" "payload" in
  exists call,
    makeRequest_call Sample.world (sendRequest form) = Normal call
    /\ Options.body (FetchCall.options call) = Some "payload"
    /\ Options.headers (FetchCall.options call) !! "Content-Type"
       = Some "application/json"
    /\ Options.headers (FetchCall.options call) !! "Accept" = Some "text/plain".
Proof.
  intros form.
  exists (FetchCall.mk (URL.mk "https://example.test/items" [])
            (makeRequest_options (sendRequest form))).
  assert (H : makeRequest_call Sample.world (sendRequest form)
              = Normal (FetchCall.mk (URL.mk "https://example.test/items" [])
                          (makeRequest_options (sendRequest form))))
    by (vm_compute; reflexivity).
  split; [exact H|].
  destruct (content_type_default Sample.world form _ H) as (H1 & H2 & _ & H4 & _).
  - simpl. tauto.
  - discriminate.
  - split; [exact H1|]. split.
    + apply H2. vm_compute. reflexivity.
    + apply H4; [vm_compute; reflexivity | discriminate].
Defined.


(** ** The event loop *)

Ltac unfold_handlers :=
  unfold RestExplorerViewProvider_onDidReceiveMessage,
    createNewRequestPanel_onDidReceiveMessage.

Section EventLoop.

Variable world : World.t.

(** A resumed call always resolves: the [catch] clause returns. *)
Lemma makeRequest_resume_normal (startTime endTime : Z)
    (result : completion Response.t) :
  exists response, makeRequest_resume startTime endTime result = Normal response.
Proof.
  unfold makeRequest_resume.
  destruct result as [r|e]; simpl; [|eauto].
  unfold makeRequest_data. destruct (Response.text r); simpl; eauto.
Qed.

(** Resuming a suspended call gives what the whole function gives for a
    transport that answers with the same result. *)
Lemma makeRequest_resume_makeRequest (message : WebviewMessage.t)
    (call : FetchCall.t) (startTime endTime : Z) (result : completion Response.t) :
  makeRequest_call world message = Normal call ->
  makeRequest_resume startTime endTime result
  = makeRequest world (fun _ => result) startTime endTime message.
Proof.
  intros H. unfold makeRequest, makeRequest_try, makeRequest_resume.
  rewrite H. reflexivity.
Qed.

(** What settling does to the history: nothing for a panel, one entry
    at the end for the history view. *)
Lemma settle_history (o : Origin) (url method : string)
    (response : ResponseData.t) (s : State) :
  _history (settle world o url method (Normal response) s)
  = match o with
    | HistoryView =>
        (_history s
           ++ [RequestHistory.mk url method (World.Date_now world (clock s)) response])%list
    | RequestPanel _ => _history s
    end.
Proof.
  destruct o; simpl; [|reflexivity].
  unfold on_fulfilled, _update, post_to_view.
  destruct (_view s) eqn:E; simpl; rewrite ?E; reflexivity.
Qed.

Lemma submit_history (o : Origin) (message : WebviewMessage.t)
    (url method : string) (s : State) :
  _history (submit world o message url method s) = _history s
  \/ exists entry,
       _history (submit world o message url method s) = (_history s ++ [entry])%list.
Proof.
  unfold submit.
  destruct (makeRequest_call world message) as [call|e]; [left; reflexivity|].
  destruct (makeRequest_resume_normal (World.Date_now world (clock s))
              (World.Date_now world (clock (tick s))) (Throw e)) as [response ->].
  rewrite settle_history. destruct o; [right; eauto | left; reflexivity].
Qed.

Lemma step_history (s : State) (e : Event) :
  _history (step world s e) = _history s
  \/ exists entry, _history (step world s e) = (_history s ++ [entry])%list.
Proof.
  destruct e as [|o message| |panel|id result]; simpl.
  - left. reflexivity.
  - destruct o as [|panel]; unfold_handlers.
    + destruct (String.eqb _ "makeRequest").
      * destruct (WebviewMessage.url message) as [u|]; [|left; reflexivity].
        destruct (WebviewMessage.method message) as [m|]; [|left; reflexivity].
        destruct (JS.truthy u && JS.truthy m); [apply submit_history | left; reflexivity].
      * destruct (String.eqb _ "openLink").
        -- destruct (WebviewMessage.url message) as [u|]; [|left; reflexivity].
           destruct (JS.truthy u); left; reflexivity.
        -- destruct (String.eqb _ "startNewRequest"); left; reflexivity.
    + destruct (String.eqb _ "makeRequest"); [|left; reflexivity].
      destruct (WebviewMessage.url message) as [u|]; [|left; reflexivity].
      destruct (WebviewMessage.method message) as [m|]; [|left; reflexivity].
      destruct (JS.truthy u && JS.truthy m); [apply submit_history | left; reflexivity].
  - left. reflexivity.
  - left. reflexivity.
  - destruct (pending s !! id) as [p|]; [|left; reflexivity].
    destruct (makeRequest_resume_normal (startTime p) (World.Date_now world (clock s)) result)
      as [response ->].
    rewrite settle_history. destruct (origin p); [right; eauto | left; reflexivity].
Qed.

Lemma run_history (events : list Event) (s : State) :
  exists added,
    _history (run world s events) = (_history s ++ added)%list
    /\ length added <= length events.
Proof.
  revert s. induction events as [|e events IH]; intros s.
  - exists []. simpl. rewrite app_nil_r. split; [reflexivity | lia].
  - destruct (IH (step world s e)) as (added & H & Hlen).
    unfold run in *. simpl. rewrite H.
    destruct (step_history s e) as [->|[entry ->]].
    + exists added. split; [reflexivity | simpl; lia].
    + exists (entry :: added). rewrite <- app_assoc. split; [reflexivity | simpl; lia].
Qed.

(** The history step of a request of the history view that settles. *)
Lemma settled_history_view (s : State) (id : nat) (p : Pending)
    (result : completion Response.t) :
  pending s !! id = Some p ->
  origin p = HistoryView ->
  exists response,
    makeRequest_resume (startTime p) (World.Date_now world (clock s)) result
    = Normal response
    /\ _history (step world s (FetchSettled id result))
       = (_history s
            ++ [RequestHistory.mk (pending_url p) (pending_method p)
                  (World.Date_now world (S (clock s))) response])%list
    /\ pending (step world s (FetchSettled id result)) = delete id (pending s).
Proof.
  intros Hp Ho.
  destruct (makeRequest_resume_normal (startTime p) (World.Date_now world (clock s)) result)
    as [response Hr].
  exists response. split; [exact Hr|].
  simpl. rewrite Hp, Hr, Ho. split.
  - rewrite settle_history. reflexivity.
  - simpl. unfold on_fulfilled, _update, post_to_view. simpl.
    destruct (_view s) eqn:E; simpl; rewrite ?E; reflexivity.
Qed.

(** C8. No operation touches an entry of the history: each step of the
    event loop leaves the list as it is or adds one entry at its end,
    so whatever happens later the list of now is kept as a prefix. A
    request of the history view that settles always adds its entry,
    whatever the list already holds and however long it is. *)
Theorem history_append_only (s : State) :
  (forall e,
     _history (step world s e) = _history s
     \/ exists entry, _history (step world s e) = (_history s ++ [entry])%list)
  /\ (forall events, exists added,
        _history (run world s events) = (_history s ++ added)%list
        /\ length added <= length events)
  /\ (forall id p result,
        pending s !! id = Some p -> origin p = HistoryView ->
        exists response,
          _history (step world s (FetchSettled id result))
          = (_history s
               ++ [RequestHistory.mk (pending_url p) (pending_method p)
                     (World.Date_now world (S (clock s))) response])%list).
Proof.
  split; [exact (step_history s)|]. split; [intros events; apply run_history|].
  intros id p result Hp Ho.
  destruct (settled_history_view s id p result Hp Ho) as (response & _ & H & _).
  eauto.
Qed.

(** C10. A message whose command is none of [makeRequest], [openLink]
    and [startNewRequest], and a [makeRequest] message without [url] or
    without [method], leave the state of the extension as it is, in the
    history view and in a panel alike: no call of [fetch], no new
    history entry, nothing posted. *)
Theorem ignored_message_does_nothing (s : State) (o : Origin)
    (message : WebviewMessage.t) :
  ~ In (WebviewMessage.command message) ["makeRequest"; "openLink"; "startNewRequest"]
  \/ (WebviewMessage.command message = "makeRequest"
      /\ (WebviewMessage.url message = None \/ WebviewMessage.method message = None)) ->
  step world s (Message o message) = s
  /\ fetched (step world s (Message o message)) = fetched s
  /\ _history (step world s (Message o message)) = _history s
  /\ _view (step world s (Message o message)) = _view s
  /\ panel_posted (step world s (Message o message)) = panel_posted s.
Proof.
  intros H.
  assert (E : step world s (Message o message) = s); [|rewrite E; tauto].
  simpl. destruct H as [H|[Hc [H|H]]].
  - assert (H1 : String.eqb (WebviewMessage.command message) "makeRequest" = false)
      by (apply String.eqb_neq; intros E; apply H; rewrite E; simpl; tauto).
    assert (H2 : String.eqb (WebviewMessage.command message) "openLink" = false)
      by (apply String.eqb_neq; intros E; apply H; rewrite E; simpl; tauto).
    assert (H3 : String.eqb (WebviewMessage.command message) "startNewRequest" = false)
      by (apply String.eqb_neq; intros E; apply H; rewrite E; simpl; tauto).
    destruct o; unfold_handlers; rewrite H1, ?H2, ?H3; reflexivity.
  - destruct o; unfold_handlers; rewrite Hc, H; reflexivity.
  - destruct o; unfold_handlers; rewrite Hc, H; simpl;
      destruct (WebviewMessage.url message); reflexivity.
Qed.

(** *** The process environment *)

Lemma settle_env_fetched (o : Origin) (url method : string)
    (result : completion ResponseData.t) (s : State) :
  env (settle world o url method result s) = env s
  /\ fetched (settle world o url method result s) = fetched s.
Proof.
  destruct result as [response|e]; [|split; reflexivity].
  destruct o; simpl; [|split; reflexivity].
  unfold on_fulfilled, _update, post_to_view.
  destruct (_view s) eqn:E; simpl; rewrite ?E; split; reflexivity.
Qed.

Lemma submit_env_fetched (o : Origin) (message : WebviewMessage.t)
    (url method : string) (s : State) :
  (env (submit world o message url method s) = env s
   /\ fetched (submit world o message url method s) = fetched s)
  \/ exists call,
       makeRequest_call world message = Normal call
       /\ env (submit world o message url method s)
          = <["NODE_TLS_REJECT_UNAUTHORIZED" := "0"]> (env s)
       /\ fetched (submit world o message url method s) = (fetched s ++ [call])%list.
Proof.
  unfold submit, makeRequest_env.
  destruct (makeRequest_call world message) as [call|e].
  - right. exists call. repeat split.
  - left. destruct (settle_env_fetched o url method
                      (makeRequest_resume (World.Date_now world (clock s))
                         (World.Date_now world (clock (tick s))) (Throw e))
                      (tick (tick s))) as [-> ->].
    split; reflexivity.
Qed.

Lemma step_env_fetched (s : State) (e : Event) :
  (env (step world s e) = env s /\ fetched (step world s e) = fetched s)
  \/ exists call,
       env (step world s e) = <["NODE_TLS_REJECT_UNAUTHORIZED" := "0"]> (env s)
       /\ fetched (step world s e) = (fetched s ++ [call])%list.
Proof.
  assert (Hsub : forall o message u m,
            (env (submit world o message u m s) = env s
             /\ fetched (submit world o message u m s) = fetched s)
            \/ exists call,
                 env (submit world o message u m s)
                 = <["NODE_TLS_REJECT_UNAUTHORIZED" := "0"]> (env s)
                 /\ fetched (submit world o message u m s) = (fetched s ++ [call])%list).
  { intros o message u m.
    destruct (submit_env_fetched o message u m s) as [H|(call & _ & H)];
      [left; exact H | right; eauto]. }
  destruct e as [|o message| |panel|id result]; simpl.
  - left. unfold _update. simpl. split; reflexivity.
  - destruct o as [|panel]; unfold_handlers.
    + destruct (String.eqb _ "makeRequest").
      * destruct (WebviewMessage.url message) as [u|]; [|left; split; reflexivity].
        destruct (WebviewMessage.method message) as [m|]; [|left; split; reflexivity].
        destruct (JS.truthy u && JS.truthy m); [apply Hsub | left; split; reflexivity].
      * destruct (String.eqb _ "openLink").
        -- destruct (WebviewMessage.url message) as [u|]; [|left; split; reflexivity].
           destruct (JS.truthy u); left; split; reflexivity.
        -- destruct (String.eqb _ "startNewRequest"); left; split; reflexivity.
    + destruct (String.eqb _ "makeRequest"); [|left; split; reflexivity].
      destruct (WebviewMessage.url message) as [u|]; [|left; split; reflexivity].
      destruct (WebviewMessage.method message) as [m|]; [|left; split; reflexivity].
      destruct (JS.truthy u && JS.truthy m); [apply Hsub | left; split; reflexivity].
  - left. split; reflexivity.
  - left. split; reflexivity.
  - destruct (pending s !! id) as [p|]; [|left; split; reflexivity].
    left.
    match goal with |- context [settle world ?o ?u ?m ?r ?s'] =>
      destruct (settle_env_fetched o u m r s') as [-> ->] end.
    split; reflexivity.
Qed.

Lemma step_tls_flag (s : State) (e : Event) :
  tls_flag s = Some "0" -> tls_flag (step world s e) = Some "0".
Proof.
  unfold tls_flag. intros H.
  destruct (step_env_fetched s e) as [[-> _]|(call & -> & _)];
    [exact H | apply lookup_insert_eq].
Qed.

Lemma run_tls_flag (events : list Event) (s : State) :
  tls_flag s = Some "0" -> tls_flag (run world s events) = Some "0".
Proof.
  revert s. induction events as [|e events IH]; intros s H; [exact H|].
  unfold run in *. simpl. apply IH. apply step_tls_flag. exact H.
Qed.

Lemma run_app (events later : list Event) (s : State) :
  run world s (events ++ later) = run world (run world s events) later.
Proof. unfold run. apply foldl_app. Qed.

Lemma run_fetched_tls_flag (events : list Event) (s : State) :
  length (fetched s) < length (fetched (run world s events)) ->
  tls_flag (run world s events) = Some "0".
Proof.
  revert s. induction events as [|e events IH]; intros s H.
  - simpl in H. lia.
  - change (run world s (e :: events)) with (run world (step world s e) events) in *.
    destruct (step_env_fetched s e) as [[_ Hf]|(call & He & _)].
    + apply IH. rewrite Hf. exact H.
    + apply run_tls_flag. unfold tls_flag. rewrite He. apply lookup_insert_eq.
Qed.

(** C7. A request that reaches [fetch], from the history view or from
    any panel, sets [NODE_TLS_REJECT_UNAUTHORIZED] to [0] in the
    environment of the process, which all requests share. No step of the
    extension gives the variable another value or removes it: once a
    request has been sent, it stays [0] through every later event,
    whichever request or panel the event belongs to. *)
Theorem tls_flag_set_and_never_restored (s : State) :
  (forall o message url method call,
     makeRequest_call world message = Normal call ->
     tls_flag (submit world o message url method s) = Some "0"
     /\ fetched (submit world o message url method s) = (fetched s ++ [call])%list)
  /\ (forall e,
        fetched (step world s e) = fetched s
        \/ exists call,
             fetched (step world s e) = (fetched s ++ [call])%list
             /\ tls_flag (step world s e) = Some "0")
  /\ (forall events,
        tls_flag s = Some "0" -> tls_flag (run world s events) = Some "0")
  /\ (forall events later,
        length (fetched s) < length (fetched (run world s events)) ->
        tls_flag (run world s (events ++ later)) = Some "0").
Proof.
  split; [|split; [|split]].
  - intros o message url method call Hcall.
    destruct (submit_env_fetched o message url method s)
      as [[_ Hf]|(call' & Hcall' & He & Hf)].
    + exfalso. revert Hf. unfold submit. rewrite Hcall. simpl.
      intros Hf. apply (f_equal length) in Hf. rewrite length_app in Hf.
      simpl in Hf. lia.
    + rewrite Hcall in Hcall'. injection Hcall' as <-.
      split; [|exact Hf]. unfold tls_flag. rewrite He. apply lookup_insert_eq.
  - intros e. destruct (step_env_fetched s e) as [[_ Hf]|(call & He & Hf)].
    + left. exact Hf.
    + right. exists call. split; [exact Hf|].
      unfold tls_flag. rewrite He. apply lookup_insert_eq.
  - intros events. apply run_tls_flag.
  - intros events later H. rewrite run_app. apply run_tls_flag.
    apply run_fetched_tls_flag. exact H.
Qed.

(** *** Requests in flight *)

(** A message that [submits] is suspended at [fetch]: the history is not
    touched, and the call waits under the next request number. *)
Lemma view_submits (s : State) (message : WebviewMessage.t) (url method : string) :
  submits world message url method ->
  exists p,
    origin p = HistoryView /\ pending_url p = url /\ pending_method p = method
    /\ makeRequest_call world message = Normal (call p)
    /\ _history (step world s (Message HistoryView message)) = _history s
    /\ pending (step world s (Message HistoryView message))
       = <[requests_started s := p]> (pending s)
    /\ requests_started (step world s (Message HistoryView message))
       = S (requests_started s).
Proof.
  intros (Hc & Hu & Hune & Hm & Hmne & Hok).
  assert (Hcall : exists call, makeRequest_call world message = Normal call).
  { unfold makeRequest_call, new_URL. rewrite Hu. simpl. rewrite Hok. simpl. eauto. }
  destruct Hcall as [call Hcall].
  exists (mkPending HistoryView url method (World.Date_now world (clock s)) call).
  simpl. unfold RestExplorerViewProvider_onDidReceiveMessage. rewrite Hc, Hu, Hm. simpl.
  apply truthy_true in Hune, Hmne. rewrite Hune, Hmne. simpl.
  unfold submit. rewrite Hcall. simpl. repeat split.
Qed.

(** C9. Three requests submitted on the history view in the order A, B,
    C and settled by the transport in the order B, A, C leave the
    entries B, A, C at the end of the history, in that order, each with
    the response to its own request. *)
Theorem history_in_completion_order (s : State)
    (A B C : WebviewMessage.t)
    (urlA methodA urlB methodB urlC methodC : string)
    (resultA resultB resultC : completion Response.t) :
  submits world A urlA methodA ->
  submits world B urlB methodB ->
  submits world C urlC methodC ->
  let a := requests_started s in
  let s' :=
    run world s
      [Message HistoryView A; Message HistoryView B; Message HistoryView C;
       FetchSettled (a + 1) resultB; FetchSettled a resultA;
       FetchSettled (a + 2) resultC] in
  exists (tA tB tC : Z) (rA rB rC : ResponseData.t)
         (startA endA startB endB startC endC : Z),
    _history s'
    = (_history s
         ++ [RequestHistory.mk urlB methodB tB rB;
             RequestHistory.mk urlA methodA tA rA;
             RequestHistory.mk urlC methodC tC rC])%list
    /\ makeRequest world (fun _ => resultA) startA endA A = Normal rA
    /\ makeRequest world (fun _ => resultB) startB endB B = Normal rB
    /\ makeRequest world (fun _ => resultC) startC endC C = Normal rC.
Proof.
  intros HA HB HC a s'. subst s'. unfold run. cbn [foldl].
  set (s1 := step world s (Message HistoryView A)).
  set (s2 := step world s1 (Message HistoryView B)).
  set (s3 := step world s2 (Message HistoryView C)).
  destruct (view_submits s A urlA methodA HA)
    as (pA & HoA & HuA & HmA & HcA & Hh1 & Hp1 & Hn1).
  destruct (view_submits s1 B urlB methodB HB)
    as (pB & HoB & HuB & HmB & HcB & Hh2 & Hp2 & Hn2).
  destruct (view_submits s2 C urlC methodC HC)
    as (pC & HoC & HuC & HmC & HcC & Hh3 & Hp3 & Hn3).
  fold s1 in Hh1, Hp1, Hn1. fold s2 in Hh2, Hp2, Hn2. fold s3 in Hh3, Hp3, Hn3.
  fold a in Hp1, Hn1. rewrite Hn1 in Hp2, Hn2. rewrite Hn2 in Hp3.
  rewrite Hp1 in Hp2. rewrite Hp2 in Hp3.
  replace (a + 1) with (S a) by lia. replace (a + 2) with (S (S a)) by lia.
  assert (HlB : pending s3 !! S a = Some pB).
  { rewrite Hp3. rewrite lookup_insert_ne by lia. apply lookup_insert_eq. }
  destruct (settled_history_view s3 (S a) pB resultB HlB HoB)
    as (rB & HrB & Hh4 & Hp4).
  set (s4 := step world s3 (FetchSettled (S a) resultB)) in *.
  assert (HlA : pending s4 !! a = Some pA).
  { rewrite Hp4, Hp3. rewrite lookup_delete_ne by lia.
    rewrite !lookup_insert_ne by lia. apply lookup_insert_eq. }
  destruct (settled_history_view s4 a pA resultA HlA HoA)
    as (rA & HrA & Hh5 & Hp5).
  set (s5 := step world s4 (FetchSettled a resultA)) in *.
  assert (HlC : pending s5 !! S (S a) = Some pC).
  { rewrite Hp5, Hp4, Hp3. rewrite !lookup_delete_ne by lia.
    apply lookup_insert_eq. }
  destruct (settled_history_view s5 (S (S a)) pC resultC HlC HoC)
    as (rC & HrC & Hh6 & _).
  eexists _, _, _, rA, rB, rC, _, _, _, _, _, _.
  split.
  - rewrite Hh6, Hh5, Hh4, Hh3, Hh2, Hh1, HuA, HmA, HuB, HmB, HuC, HmC.
    rewrite <- !app_assoc. reflexivity.
  - rewrite <- (makeRequest_resume_makeRequest A _ _ _ resultA HcA).
    rewrite <- (makeRequest_resume_makeRequest B _ _ _ resultB HcB).
    rewrite <- (makeRequest_resume_makeRequest C _ _ _ resultC HcC).
    split; [exact HrA|]. split; [exact HrB | exact HrC].
Qed.

End EventLoop.

(** ** Worked examples of the event loop *)

Lemma sample_submits (method url body : string) :
  url <> "" -> method <> "" -> Sample.URL_throws url = None ->
  submits Sample.world (Sample.request method url body) url method.
Proof. intros Hu Hm Hok. unfold submits. simpl. tauto. Qed.

(** A panel sends a request; after it has settled and the panel is
    gone, the history view still finds the variable set. *)
Lemma tls_flag_set_and_never_restored_witness :
  let s := activate ∅ in
  let events :=
    [NewRequestCommand;
     Message (RequestPanel 0) (Sample.request "GET" "https://a.test/" "")] in
  let later :=
    [FetchSettled 0 (Sample.ok "a"); PanelDisposed 0; ResolveWebviewView;
     Message HistoryView (Sample.request "GET" "https://b.test/" "")] in
  tls_flag s = None
  /\ tls_flag (run Sample.world s (events ++ later)) = Some "0"
  /\ length (fetched (run Sample.world s (events ++ later))) = 2.
Proof.
  intros s events later. split; [reflexivity|]. split; [|vm_compute; reflexivity].
  destruct (tls_flag_set_and_never_restored Sample.world s) as (_ & _ & _ & H).
  apply H. vm_compute. lia.
Defined.

(** The same request twice: the second entry is added after the first,
    which is kept. *)
Lemma history_append_only_witness :
  let A := Sample.request "GET" "http://a.test/" "" in
  let s :=
    run Sample.world (activate ∅)
      [ResolveWebviewView; Message HistoryView A; Message HistoryView A;
       FetchSettled 0 (Sample.ok "a")] in
  length (_history s) = 1
  /\ exists response,
       _history (step Sample.world s (FetchSettled 1 (Sample.ok "a")))
       = (_history s
            ++ [RequestHistory.mk "http://a.test/" "GET"
                  (World.Date_now Sample.world (S (clock s))) response])%list.
Proof.
  intros A s. split; [vm_compute; reflexivity|].
  destruct (history_append_only Sample.world s) as (_ & _ & H).
  apply (H 1 (mkPending HistoryView "http://a.test/" "GET" 1007
                (FetchCall.mk (URL.mk "http://a.test/" []) (makeRequest_options A))));
    vm_compute; reflexivity.
Defined.

Lemma history_in_completion_order_witness :
  let A := Sample.request "GET" "http://a.test/" "" in
  let B := Sample.request "POST" "http://b.test/" "payload" in
  let C := Sample.request "GET" "http://c.test/" "" in
  let s := run Sample.world (activate ∅) [ResolveWebviewView] in
  let s' :=
    run Sample.world s
      [Message HistoryView A; Message HistoryView B; Message HistoryView C;
       FetchSettled (requests_started s + 1) (Sample.ok "b");
       FetchSettled (requests_started s) (Throw (ThrownError "socket hang up"));
       FetchSettled (requests_started s + 2) (Sample.ok "c")] in
  exists (tA tB tC : Z) (rA rB rC : ResponseData.t),
    _history s'
    = [RequestHistory.mk "http://b.test/" "POST" tB rB;
       RequestHistory.mk "http://a.test/" "GET" tA rA;
       RequestHistory.mk "http://c.test/" "GET" tC rC]
    /\ ResponseData.body rA = "socket hang up"
    /\ ResponseData.body rB = "b"
    /\ ResponseData.body rC = "c".
Proof.
  intros A B C s s'.
  destruct (history_in_completion_order Sample.world s A B C
              "http://a.test/" "GET" "http://b.test/" "POST" "http://c.test/" "GET"
              (Throw (ThrownError "socket hang up")) (Sample.ok "b") (Sample.ok "c"))
    as (tA & tB & tC & rA & rB & rC & sA & eA & sB & eB & sC & eC & H & HA & HB & HC);
    try (apply sample_submits; [discriminate | discriminate | reflexivity]).
  exists tA, tB, tC, rA, rB, rC. split; [exact H|].
  vm_compute in HA, HB, HC.
  injection HA as <-. injection HB as <-. injection HC as <-.
  repeat split.
Defined.

(** A command the handlers do not know, and a [makeRequest] without
    [url]. *)
Lemma ignored_message_does_nothing_witness :
  let s :=
    run Sample.world (activate ∅)
      [ResolveWebviewView; NewRequestCommand;
       Message HistoryView (Sample.request "GET" "http://a.test/" "")] in
  let ping := WebviewMessage.mk "ping" (Some "http://a.test/") (Some "GET")
                None None None None in
  let no_url := WebviewMessage.mk "makeRequest" None (Some "GET")
                  None None None None in
  step Sample.world s (Message HistoryView ping) = s
  /\ step Sample.world s (Message (RequestPanel 0) no_url) = s.
Proof.
  intros s ping no_url. split.
  - apply (ignored_message_does_nothing Sample.world s HistoryView ping).
    left. simpl. intros [H|[H|[H|H]]]; try discriminate. exact H.
  - apply (ignored_message_does_nothing Sample.world s (RequestPanel 0) no_url).
    right. split; [reflexivity | left; reflexivity].
Defined.

(** * More of the extension *)

(** ** Credentials on the wire *)

Lemma utf8_decode_from (s : string) : RFC3629.decode (Buffer.from s) = Some s.
Proof.
  induction s as [|c s IH]; [reflexivity|].
  cbn [Buffer.from]. unfold Buffer.utf8.
  pose proof (N_ascii_bounded c) as Hc.
  pose proof (forallb_below 256 utf8_reads_back ltac:(vm_compute; reflexivity) _ Hc) as H.
  unfold utf8_reads_back in H.
  destruct (N_of_ascii c <? 128)%N eqn:E.
  - cbn [app RFC3629.decode]. rewrite E, IH. simpl.
    rewrite ascii_N_embedding. reflexivity.
  - simpl in H.
    apply andb_prop in H as [H H5]. apply andb_prop in H as [H H4].
    apply andb_prop in H as [H H3]. apply andb_prop in H as [H1 H2].
    apply negb_true_iff in H1. apply N.eqb_eq in H5.
    cbn [app RFC3629.decode]. rewrite H1, H2, H3, H4, H5, IH. simpl.
    rewrite ascii_N_embedding. reflexivity.
Qed.

(** X1. What follows [Basic ] in the [Authorization] header of a request
    with basic authentication reads back, through the base64 decoder and
    the UTF-8 decoder of the standards, as the user name, a colon and
    the password, whatever the two strings hold. *)
Theorem basic_credentials_read_back (world : World.t)
    (message : WebviewMessage.t) (call : FetchCall.t)
    (username password : string) (token : option string) :
  WebviewMessage.auth message
    = Some (Auth.mk "basic" (Some username) (Some password) token) ->
  makeRequest_call world message = Normal call ->
  exists digits,
    Options.headers (FetchCall.options call) !! "Authorization"
    = Some ("Basic " ++ digits)
    /\ (RFC4648.decode digits ≫= RFC3629.decode)
       = Some (username ++ ":" ++ password).
Proof.
  intros Hauth Hcall.
  exists (base64 (username ++ ":" ++ password)). split.
  - rewrite (makeRequest_call_options _ _ _ Hcall). unfold makeRequest_options.
    rewrite attach_body_other by discriminate. cbn [Options.headers].
    rewrite Hauth. unfold apply_auth. simpl.
    rewrite obj_set_insert by discriminate. apply lookup_insert_eq.
  - unfold base64. rewrite decode_encode by apply from_bytes.
    simpl. apply utf8_decode_from.
Qed.

Lemma basic_credentials_read_back_witness :
  let message :=
    Sample.request_with "GET" "http://example.test/" "" ∅
      (Auth.mk "basic" (Some "alice") (Some "s3cr:t") None) in
  exists call digits,
    makeRequest_call Sample.world message = Normal call
    /\ Options.headers (FetchCall.options call) !! "Authorization"
       = Some ("Basic " ++ digits)
    /\ (RFC4648.decode digits ≫= RFC3629.decode) = Some "alice:s3cr:t".
Proof.
  intros message.
  assert (H : makeRequest_call Sample.world message
              = Normal (FetchCall.mk (URL.mk "http://example.test/" [])
                          (makeRequest_options message)))
    by (vm_compute; reflexivity).
  destruct (basic_credentials_read_back Sample.world message _ "alice" "s3cr:t" None
              eq_refl H) as (digits & H1 & H2).
  eexists _, digits. split; [exact H|]. split; [exact H1 | exact H2].
Defined.

(** ** The normalised response *)

Lemma obj_set_other (k v name : string) (o : gmap string string) :
  k <> name -> JS.obj_set k v o !! name = o !! name.
Proof.
  intros Hne. unfold JS.obj_set. destruct (decide _); [reflexivity|].
  apply lookup_insert_ne. exact Hne.
Qed.

Lemma obj_set_proto (k v : string) (o : gmap string string) :
  JS.obj_set k v o !! "__proto__" = o !! "__proto__".
Proof.
  unfold JS.obj_set. destruct (decide (k = "__proto__")) as [E|Hne]; [reflexivity|].
  apply lookup_insert_ne. exact Hne.
Qed.

Lemma fold_entries_other (entries : list (string * string))
    (o : gmap string string) (name : string) :
  name ∉ entries.*1 ->
  foldl (fun headers kv => JS.obj_set kv.1 kv.2 headers) o entries !! name = o !! name.
Proof.
  revert o. induction entries as [|[k v] entries IH]; intros o Hnot; [reflexivity|].
  simpl in *. apply not_elem_of_cons in Hnot as [Hne Hnot].
  rewrite IH by exact Hnot. apply obj_set_other. congruence.
Qed.

Lemma fold_entries_proto (entries : list (string * string)) (o : gmap string string) :
  foldl (fun headers kv => JS.obj_set kv.1 kv.2 headers) o entries !! "__proto__"
  = o !! "__proto__".
Proof.
  revert o. induction entries as [|[k v] entries IH]; intros o; [reflexivity|].
  simpl. rewrite IH. apply obj_set_proto.
Qed.

(** X2. The headers of a normalised response hold, for every name the
    transport yields, the value it yields last for that name, and no
    other name; a header named [__proto__] is never among them. *)
Theorem response_headers_last_wins (startTime endTime : Z)
    (response : Response.t) (data : ResponseData.t) :
  makeRequest_data startTime endTime response = Normal data ->
  (forall name, name ∉ (Response.entries response).*1 ->
     ResponseData.headers data !! name = None)
  /\ (forall before name value after,
        Response.entries response = (before ++ (name, value) :: after)%list ->
        name ∉ after.*1 -> name <> "__proto__" ->
        ResponseData.headers data !! name = Some value)
  /\ ResponseData.headers data !! "__proto__" = None.
Proof.
  unfold makeRequest_data. intros H.
  destruct (Response.text response) as [text|e]; [|discriminate].
  injection H as <-. cbn [ResponseData.headers]. split; [|split].
  - intros name Hnot. rewrite fold_entries_other by exact Hnot. apply lookup_empty.
  - intros before name value after -> Hnot Hne.
    rewrite foldl_app. cbn [foldl]. rewrite fold_entries_other by exact Hnot.
    simpl. rewrite obj_set_insert by exact Hne. apply lookup_insert_eq.
  - rewrite fold_entries_proto. apply lookup_empty.
Qed.

Lemma response_headers_last_wins_witness :
  let response :=
    Response.mk 200 "OK" None
      [("x-trace", "1"); ("content-type", "text/html"); ("x-trace", "2")]
      (Normal "ok") in
  exists data,
    makeRequest_data 0 5 response = Normal data
    /\ ResponseData.headers data !! "x-trace" = Some "2"
    /\ ResponseData.headers data !! "etag" = None.
Proof.
  intros response. eexists. split; [reflexivity|].
  match goal with |- ResponseData.headers ?d !! _ = _ /\ _ =>
    destruct (response_headers_last_wins 0 5 response d eq_refl) as (H1 & H2 & _) end.
  split.
  - apply (H2 [("x-trace", "1"); ("content-type", "text/html")] "x-trace" "2" []);
      [reflexivity | apply not_elem_of_nil | discriminate].
  - apply H1. vm_compute. intros H. repeat (apply elem_of_cons in H as [H|H]; [discriminate|]).
    apply elem_of_nil in H. exact H.
Defined.

Section Sentinel.

Variable world : World.t.

(** X3. Status 0 is the mark of a failed request and of nothing else: as
    long as the transport answers with a status other than 0, as every
    HTTP response does, the record [makeRequest] resolves to has status
    0 exactly when its [try] block threw. *)
Theorem status_zero_iff_failure
    (fetch : FetchCall.t -> completion Response.t)
    (startTime endTime : Z) (message : WebviewMessage.t) (r : ResponseData.t) :
  (forall call response,
      fetch call = Normal response -> Response.status response <> 0%Z) ->
  makeRequest world fetch startTime endTime message = Normal r ->
  ResponseData.status r = 0%Z
  <-> exists error,
        makeRequest_try world fetch startTime endTime message = Throw error.
Proof.
  intros Hstatus. unfold makeRequest.
  destruct (makeRequest_try world fetch startTime endTime message) as [r'|e] eqn:Htry;
    simpl; intros Hr; injection Hr as <-.
  - split; [|intros [error H]; discriminate].
    intros H0. exfalso. revert Htry. unfold makeRequest_try.
    destruct (makeRequest_call world message) as [call|e]; simpl; [|discriminate].
    destruct (fetch call) as [response|e] eqn:Hf; simpl; [|discriminate].
    unfold makeRequest_data.
    destruct (Response.text response) as [text|e]; simpl; [|discriminate].
    intros H. injection H as <-. exact (Hstatus _ _ Hf H0).
  - split; [eauto | reflexivity].
Qed.

End Sentinel.

Lemma status_zero_iff_failure_witness :
  let fetch := fun _ : FetchCall.t => Sample.ok "pong" in
  let message := Sample.request "GET" "http://example.test/ping" "" in
  let r := ResponseData.mk 200 "OK" ∅ "pong" 4 30 ∅ in
  makeRequest Sample.world fetch 100 130 message = Normal r
  /\ (ResponseData.status r = 0%Z
      <-> exists error,
            makeRequest_try Sample.world fetch 100 130 message = Throw error).
Proof.
  intros fetch message r.
  assert (H : makeRequest Sample.world fetch 100 130 message = Normal r)
    by (vm_compute; reflexivity).
  split; [exact H|].
  apply (status_zero_iff_failure Sample.world fetch 100 130 message r); [|exact H].
  intros call response Hf. injection Hf as <-. discriminate.
Defined.

(** ** What the form sends *)

Lemma fold_collect_other (rows : list Row.t) (o : gmap string string) (k : string) :
  (forall r, r ∈ rows -> Row.checked r = true -> Row.value r <> "" -> Row.key r <> k) ->
  foldl collect_row o rows !! k = o !! k.
Proof.
  revert o. induction rows as [|row rows IH]; intros o H; [reflexivity|].
  simpl. rewrite IH by (intros r Hr; apply H; right; exact Hr).
  unfold collect_row.
  destruct (Row.checked row && JS.truthy (Row.key row) && JS.truthy (Row.value row)) eqn:E;
    [|reflexivity].
  apply andb_prop in E as [E Hv]. apply andb_prop in E as [Hc _].
  apply obj_set_other. apply H; [left | exact Hc | apply truthy_true; exact Hv].
Qed.

Lemma fold_collect_elem (rows : list Row.t) (o : gmap string string) (k v : string) :
  foldl collect_row o rows !! k = Some v ->
  o !! k = Some v
  \/ exists row, row ∈ rows /\ Row.checked row = true
                 /\ Row.key row = k /\ Row.value row = v /\ k <> "" /\ v <> "".
Proof.
  revert o. induction rows as [|row rows IH]; intros o H; [left; exact H|].
  simpl in H. destruct (IH _ H) as [Ho|(r & Hr & Hrest)].
  - unfold collect_row in Ho.
    destruct (Row.checked row && JS.truthy (Row.key row) && JS.truthy (Row.value row)) eqn:E;
      [|left; exact Ho].
    apply andb_prop in E as [E Hv]. apply andb_prop in E as [Hc Hk].
    apply truthy_true in Hv, Hk.
    unfold JS.obj_set in Ho. destruct (decide _); [left; exact Ho|].
    destruct (decide (Row.key row = k)) as [<-|Hne].
    + rewrite lookup_insert_eq in Ho. injection Ho as <-.
      right. exists row. split; [left|]. tauto.
    + rewrite lookup_insert_ne in Ho by exact Hne. left. exact Ho.
  - right. exists r. split; [right; exact Hr | exact Hrest].
Qed.

Lemma collect_last (before after : list Row.t) (row : Row.t) :
  Row.checked row = true -> Row.key row <> "" -> Row.value row <> "" ->
  Row.key row <> "__proto__" ->
  (forall r, r ∈ after -> Row.checked r = true -> Row.value r <> "" ->
     Row.key r <> Row.key row) ->
  collect (before ++ row :: after) !! Row.key row = Some (Row.value row).
Proof.
  intros Hc Hk Hv Hp Hafter. unfold collect. rewrite foldl_app. cbn [foldl].
  rewrite fold_collect_other by exact Hafter.
  unfold collect_row. apply truthy_true in Hk, Hv. rewrite Hc, Hk, Hv. simpl.
  rewrite obj_set_insert by exact Hp. apply lookup_insert_eq.
Qed.

Lemma fold_searchParams_append (l : list (string * string)) (u : URL.t) :
  URL.input (foldl URL.searchParams_append u l) = URL.input u
  /\ URL.appended (foldl URL.searchParams_append u l) = (URL.appended u ++ l)%list.
Proof.
  revert u. induction l as [|kv l IH]; intros u; simpl.
  - rewrite app_nil_r. split; reflexivity.
  - destruct (IH (URL.searchParams_append u kv)) as [-> ->]. simpl.
    rewrite <- app_assoc. split; reflexivity.
Qed.

Section FormToRequest.

Variable world : World.t.

(** X4. The request of a form goes to the URL typed, with the query
    parameters of the rows that are ticked and filled on both sides, and
    of no other row. A name is sent at most once: of several such rows
    with one name, the last in the table is the one that is sent. *)
Theorem query_rows_sent (form : Form.t) (call : FetchCall.t) :
  makeRequest_call world (sendRequest form) = Normal call ->
  let sent := URL.appended (FetchCall.url call) in
  URL.input (FetchCall.url call) = Form.url form
  /\ NoDup sent.*1
  /\ (forall k v, (k, v) ∈ sent ->
        exists row, row ∈ Form.queryParams form /\ Row.checked row = true
                    /\ Row.key row = k /\ Row.value row = v /\ k <> "" /\ v <> "")
  /\ (forall before row after,
        Form.queryParams form = (before ++ row :: after)%list ->
        Row.checked row = true -> Row.key row <> "" -> Row.value row <> "" ->
        Row.key row <> "__proto__" ->
        (forall r, r ∈ after -> Row.checked r = true -> Row.value r <> "" ->
           Row.key r <> Row.key row) ->
        (Row.key row, Row.value row) ∈ sent).
Proof.
  unfold makeRequest_call, new_URL. cbn [sendRequest WebviewMessage.url WebviewMessage.query JS.interpolate].
  destruct (World.URL_throws world (Form.url form)); simpl; [discriminate|].
  intros H. injection H as <-. cbn [FetchCall.url].
  destruct (fold_searchParams_append (map_to_list (collect (Form.queryParams form)))
              (URL.mk (Form.url form) [])) as [-> ->].
  cbn [URL.input URL.appended app].
  split; [reflexivity|]. split; [apply NoDup_fst_map_to_list|]. split.
  - intros k v Hin. apply elem_of_map_to_list in Hin.
    destruct (fold_collect_elem _ _ _ _ Hin) as [H|H]; [|exact H].
    rewrite lookup_empty in H. discriminate.
  - intros before row after -> Hc Hk Hv Hp Hafter.
    apply elem_of_map_to_list. apply collect_last; assumption.
Qed.

(** X5. What the user entered as headers reaches [fetch] untouched but
    for two names: only [Authorization] and [Content-Type] can differ
    from the message. [Content-Type] is as the message has it whenever no
    body is sent; with a body, an empty [Content-Type] is replaced by
    [application/json] like a missing one. The method is passed on as
    it is. *)
Theorem outgoing_headers_frame (message : WebviewMessage.t) (call : FetchCall.t) :
  makeRequest_call world message = Normal call ->
  let user := default ∅ (WebviewMessage.headers message) in
  let out := Options.headers (FetchCall.options call) in
  Options.method (FetchCall.options call) = WebviewMessage.method message
  /\ (forall name, name <> "Authorization" -> name <> "Content-Type" ->
        out !! name = user !! name)
  /\ (Options.body (FetchCall.options call) = None ->
      out !! "Content-Type" = user !! "Content-Type")
  /\ (Options.body (FetchCall.options call) <> None ->
      user !! "Content-Type" = Some "" ->
      out !! "Content-Type" = Some "application/json").
Proof.
  intros Hcall user out. subst out.
  rewrite (makeRequest_call_options _ _ _ Hcall). unfold makeRequest_options.
  fold user. rewrite attach_body_body. unfold attach_body.
  destruct (sends_body message) eqn:Hs; cbn [Options.method Options.headers Options.body].
  - split; [reflexivity|]. split; [|split].
    + intros name Ha Hc. destruct (negb _).
      * rewrite obj_set_other by congruence. apply apply_auth_other. exact Ha.
      * apply apply_auth_other. exact Ha.
    + intros Hnone. apply sends_body_true in Hs as [_ (b & Hb & _)]. congruence.
    + intros _ Hempty. rewrite apply_auth_other by discriminate.
      rewrite Hempty. simpl. rewrite obj_set_insert by discriminate.
      apply lookup_insert_eq.
  - split; [reflexivity|]. split; [|split].
    + intros name Ha _. apply apply_auth_other. exact Ha.
    + intros _. apply apply_auth_other. discriminate.
    + intros Hsome. exfalso. apply Hsome. reflexivity.
Qed.

End FormToRequest.

Lemma query_rows_sent_witness :
  let form :=
    Form.mk "GET" "http://example.test/search"
      [Row.mk true "q" "x"; Row.mk false "unused" "y"; Row.mk true "page" "";
       Row.mk true "q" "z"]
      [] "none" "" "" "" "" in
  exists call,
    makeRequest_call Sample.world (sendRequest form) = Normal call
    /\ URL.input (FetchCall.url call) = "http://example.test/search"
    /\ ("q", "z") ∈ URL.appended (FetchCall.url call)
    /\ NoDup (URL.appended (FetchCall.url call)).*1.
Proof.
  intros form.
  assert (H : makeRequest_call Sample.world (sendRequest form)
              = Normal (FetchCall.mk (URL.mk "http://example.test/search" [("q", "z")])
                          (makeRequest_options (sendRequest form))))
    by (vm_compute; reflexivity).
  eexists. split; [exact H|].
  destruct (query_rows_sent Sample.world form _ H) as (H1 & H2 & _ & H4).
  split; [exact H1|]. split; [|exact H2].
  apply (H4 [Row.mk true "q" "x"; Row.mk false "unused" "y"; Row.mk true "page" ""]
            (Row.mk true "q" "z") []); try reflexivity; try discriminate.
  intros r Hr. apply elem_of_nil in Hr. destruct Hr.
Defined.

Lemma outgoing_headers_frame_witness :
  let message :=
    Sample.request_with "GET" "http://example.test/" "ignored"
      {[ "Accept" := "*/*"; "Content-Type" := "text/xml" ]}
      (Auth.mk "bearer" None None (Some "t0k3n")) in
  exists call,
    makeRequest_call Sample.world message = Normal call
    /\ Options.method (FetchCall.options call) = Some "GET"
    /\ Options.headers (FetchCall.options call) !! "Accept" = Some "*/*"
    /\ Options.headers (FetchCall.options call) !! "Content-Type" = Some "text/xml".
Proof.
  intros message.
  assert (H : makeRequest_call Sample.world message
              = Normal (FetchCall.mk (URL.mk "http://example.test/" [])
                          (makeRequest_options message)))
    by (vm_compute; reflexivity).
  eexists. split; [exact H|].
  destruct (outgoing_headers_frame Sample.world message _ H) as (H1 & H2 & H3 & _).
  split; [exact H1|]. split.
  - rewrite H2 by discriminate. vm_compute. reflexivity.
  - rewrite H3 by (vm_compute; reflexivity). vm_compute. reflexivity.
Defined.

(** ** Trimmed cookies *)

Lemma trimEnd_idem (s : string) : JS.trimEnd (JS.trimEnd s) = JS.trimEnd s.
Proof.
  induction s as [|c s IH]; [reflexivity|]. simpl.
  destruct (JS.trimEnd s) as [|d t] eqn:E.
  - destruct (JS.is_white_space c) eqn:W; simpl; [reflexivity|]. rewrite W. reflexivity.
  - change (JS.trimEnd (String c (String d t)))
      with (match JS.trimEnd (String d t) with
            | EmptyString =>
                if JS.is_white_space c then EmptyString else String c EmptyString
            | String _ _ as t' => String c t'
            end).
    rewrite IH. reflexivity.
Qed.

Lemma trimStart_fixed (s : string) :
  match JS.trimStart s with
  | EmptyString => True
  | String c _ => JS.is_white_space c = false
  end.
Proof.
  induction s as [|c s IH]; simpl; [exact I|].
  destruct (JS.is_white_space c) eqn:W; [exact IH | exact W].
Qed.

Lemma trimStart_trimEnd (s : string) :
  match s with
  | EmptyString => True
  | String c _ => JS.is_white_space c = false
  end ->
  JS.trimStart (JS.trimEnd s) = JS.trimEnd s.
Proof.
  destruct s as [|c s]; [reflexivity|]. intros W. simpl.
  destruct (JS.trimEnd s); rewrite ?W; simpl; rewrite W; reflexivity.
Qed.

Lemma trim_idem (s : string) : JS.trim (JS.trim s) = JS.trim s.
Proof.
  unfold JS.trim. rewrite trimStart_trimEnd by apply trimStart_fixed.
  apply trimEnd_idem.
Qed.

Lemma cookie_step_trimmed (cookies : gmap string string) (cookie : string) :
  (forall k v, cookies !! k = Some v ->
     JS.trim k = k /\ JS.trim v = v /\ k <> "__proto__") ->
  forall k v, cookie_step cookies cookie !! k = Some v ->
    JS.trim k = k /\ JS.trim v = v /\ k <> "__proto__".
Proof.
  intros Ho k v. unfold cookie_step.
  destruct (JS.split "="%char cookie) as [|name [|value rest]]; try apply Ho.
  destruct (JS.truthy name && JS.truthy value); [|apply Ho].
  unfold JS.obj_set. destruct (decide _) as [E|Hne]; [apply Ho|].
  destruct (decide (JS.trim name = k)) as [<-|Hk].
  - rewrite lookup_insert_eq. intros H. injection H as <-.
    split; [apply trim_idem|]. split; [apply trim_idem | exact Hne].
  - rewrite lookup_insert_ne by exact Hk. apply Ho.
Qed.

(** X6. No cookie of a normalised response has white space at either
    end of its name or of its value, and none is named [__proto__]:
    what the parser stores it has trimmed. *)
Theorem cookies_are_trimmed (startTime endTime : Z)
    (response : Response.t) (data : ResponseData.t) :
  makeRequest_data startTime endTime response = Normal data ->
  forall name value, ResponseData.cookies data !! name = Some value ->
    JS.trim name = name /\ JS.trim value = value /\ name <> "__proto__".
Proof.
  unfold makeRequest_data. intros H.
  destruct (Response.text response) as [text|e]; [|discriminate].
  injection H as <-. cbn [ResponseData.cookies]. unfold parseCookies.
  assert (Hfold : forall segments (o : gmap string string),
            (forall k v, o !! k = Some v ->
               JS.trim k = k /\ JS.trim v = v /\ k <> "__proto__") ->
            forall k v, foldl cookie_step o segments !! k = Some v ->
              JS.trim k = k /\ JS.trim v = v /\ k <> "__proto__").
  { induction segments as [|seg segments IH]; intros o Ho; [exact Ho|].
    simpl. apply IH. apply cookie_step_trimmed. exact Ho. }
  assert (Hempty : forall k v, (∅ : gmap string string) !! k = Some v ->
            JS.trim k = k /\ JS.trim v = v /\ k <> "__proto__")
    by (intros k v; rewrite lookup_empty; discriminate).
  destruct (Response.get_set_cookie response) as [h|]; [|exact Hempty].
  destruct (JS.truthy h); [|exact Hempty].
  apply Hfold. exact Hempty.
Qed.

Lemma cookies_are_trimmed_witness :
  let response :=
    Response.mk 200 "OK" (Some "  sid = 42 ;theme=dark  ") [] (Normal "ok") in
  exists data,
    makeRequest_data 0 5 response = Normal data
    /\ ResponseData.cookies data !! "sid" = Some "42"
    /\ JS.trim "sid" = "sid" /\ JS.trim "42" = "42".
Proof.
  intros response. eexists. split; [reflexivity|].
  match goal with |- ResponseData.cookies ?d !! _ = _ /\ _ =>
    assert (H : ResponseData.cookies d !! "sid" = Some "42")
      by (vm_compute; reflexivity);
    destruct (cookies_are_trimmed 0 5 response d eq_refl "sid" "42" H) as (H1 & H2 & _)
  end.
  split; [exact H|]. split; [exact H1 | exact H2].
Defined.

(** ** Runs of the event loop *)

Section Runs.

Variable world : World.t.

(** What one step can do, handler by handler. *)
Lemma step_cases (s : State) (e : Event) :
  step world s e = s
  \/ (e = ResolveWebviewView
      /\ step world s e = _update world (set_view (Some (mkWebviewView "" [])) s))
  \/ (exists url, step world s e = open_external url s)
  \/ step world s e = createNewRequestPanel s
  \/ (exists panel,
        step world s e
        = set_panels (remove_first panel (currentPanels s)) (panels_created s) s)
  \/ (exists o message url method call,
        e = Message o message
        /\ makeRequest_call world message = Normal call
        /\ step world s e
           = suspend (mkPending o url method (World.Date_now world (clock s)) call)
               (set_env (insert "NODE_TLS_REJECT_UNAUTHORIZED" "0") (tick s)))
  \/ (exists o message url method error,
        e = Message o message
        /\ makeRequest_call world message = Throw error
        /\ WebviewMessage.url message = Some url
        /\ WebviewMessage.method message = Some method
        /\ step world s e
           = settle world o url method
               (Normal (makeRequest_catch (World.Date_now world (clock s))
                          (World.Date_now world (S (clock s))) error))
               (tick (tick s)))
  \/ (exists id p result response,
        e = FetchSettled id result
        /\ pending s !! id = Some p
        /\ makeRequest_resume (startTime p) (World.Date_now world (clock s)) result
           = Normal response
        /\ step world s e
           = settle world (origin p) (pending_url p) (pending_method p)
               (Normal response) (tick (forget id s))).
Proof.
  assert (Hsubmit : forall o message u m,
            WebviewMessage.url message = Some u ->
            WebviewMessage.method message = Some m ->
            (exists call,
                makeRequest_call world message = Normal call
                /\ submit world o message u m s
                   = suspend (mkPending o u m (World.Date_now world (clock s)) call)
                       (set_env (insert "NODE_TLS_REJECT_UNAUTHORIZED" "0") (tick s)))
            \/ (exists error,
                   makeRequest_call world message = Throw error
                   /\ submit world o message u m s
                      = settle world o u m
                          (Normal (makeRequest_catch (World.Date_now world (clock s))
                                     (World.Date_now world (S (clock s))) error))
                          (tick (tick s)))).
  { intros o message u m Hu Hm. unfold submit, makeRequest_env.
    destruct (makeRequest_call world message) as [call|error];
      [left; eauto | right; eauto]. }
  destruct e as [|o message| |panel|id result]; simpl.
  - right. left. split; reflexivity.
  - destruct o as [|panel]; unfold_handlers.
    + destruct (String.eqb _ "makeRequest").
      * destruct (WebviewMessage.url message) as [u|] eqn:Hu; [|left; reflexivity].
        destruct (WebviewMessage.method message) as [m|] eqn:Hm; [|left; reflexivity].
        destruct (JS.truthy u && JS.truthy m); [|left; reflexivity].
        destruct (Hsubmit HistoryView message u m Hu Hm)
          as [(call & H1 & H2)|(error & H1 & H2)].
        -- do 5 right. left. exists HistoryView, message, u, m, call. tauto.
        -- do 6 right. left. exists HistoryView, message, u, m, error. tauto.
      * destruct (String.eqb _ "openLink").
        -- destruct (WebviewMessage.url message) as [u|]; [|left; reflexivity].
           destruct (JS.truthy u); [|left; reflexivity].
           right. right. left. eauto.
        -- destruct (String.eqb _ "startNewRequest"); [|left; reflexivity].
           do 3 right. left. reflexivity.
    + destruct (String.eqb _ "makeRequest"); [|left; reflexivity].
      destruct (WebviewMessage.url message) as [u|] eqn:Hu; [|left; reflexivity].
      destruct (WebviewMessage.method message) as [m|] eqn:Hm; [|left; reflexivity].
      destruct (JS.truthy u && JS.truthy m); [|left; reflexivity].
      destruct (Hsubmit (RequestPanel panel) message u m Hu Hm)
        as [(call & H1 & H2)|(error & H1 & H2)].
      * do 5 right. left. exists (RequestPanel panel), message, u, m, call. tauto.
      * do 6 right. left. exists (RequestPanel panel), message, u, m, error. tauto.
  - do 3 right. left. reflexivity.
  - do 4 right. left. eauto.
  - destruct (pending s !! id) as [p|] eqn:Hp; [|left; reflexivity].
    destruct (makeRequest_resume_normal (startTime p) (World.Date_now world (clock s)) result)
      as [response Hr].
    do 7 right. exists id, p, result, response. rewrite Hr. tauto.
Qed.

(** A property kept by every step holds after every run. *)
Lemma run_invariant (P : State -> Prop) (s : State) (events : list Event) :
  P s -> (forall s e, P s -> P (step world s e)) -> P (run world s events).
Proof.
  intros H0 Hstep. revert s H0. induction events as [|e events IH]; intros s H0.
  - exact H0.
  - apply (IH (step world s e)). apply Hstep. exact H0.
Qed.

(** The view and the history after settling. *)
Lemma settle_view_history (o : Origin) (url method : string)
    (response : ResponseData.t) (s : State) :
  let s' := settle world o url method (Normal response) s in
  match o with
  | HistoryView =>
      let h := RequestHistory.mk url method (World.Date_now world (clock s)) response in
      _history s' = (_history s ++ [h])%list
      /\ _view s'
         = (fun v => mkWebviewView
                       (World.getWebviewContent world (_history s ++ [h]))
                       (view_posted v ++ [response])) <$> _view s
  | RequestPanel panel =>
      _history s' = _history s /\ _view s' = _view s
      /\ panel_posted s' = (panel_posted s ++ [(panel, response)])%list
  end
  /\ currentPanels s' = currentPanels s /\ panels_created s' = panels_created s
  /\ pending s' = pending s /\ fetched s' = fetched s /\ env s' = env s
  /\ opened s' = opened s /\ requests_started s' = requests_started s.
Proof.
  destruct o; simpl.
  - unfold on_fulfilled, _update, post_to_view.
    destruct (_view s) eqn:E; simpl; rewrite ?E; simpl; repeat split; exact E.
  - repeat split.
Qed.

End Runs.

(** ** The history view *)

Section View.

Variable world : World.t.




End View.

(** ** Requests that fail before they are sent, and requests that settle *)

Section Settling.

Variable world : World.t.

(** X9. A request whose URL does not parse is answered in the turn that
    submits it: [fetch] is not called, the environment of the process is
    not touched, nothing is left waiting, and the failure record (status
    0, the message of the exception) is at once the last entry of the
    history, or is posted to the panel that asked. *)
Theorem invalid_url_settles_at_once (s : State) (message : WebviewMessage.t)
    (url method : string) (error : thrown) :
  WebviewMessage.command message = "makeRequest" ->
  WebviewMessage.url message = Some url -> url <> "" ->
  WebviewMessage.method message = Some method -> method <> "" ->
  World.URL_throws world url = Some error ->
  let failure :=
    makeRequest_catch (World.Date_now world (clock s))
      (World.Date_now world (S (clock s))) error in
  (let s' := step world s (Message HistoryView message) in
   fetched s' = fetched s /\ env s' = env s /\ pending s' = pending s
   /\ _history s'
      = (_history s
           ++ [RequestHistory.mk url method
                 (World.Date_now world (S (S (clock s)))) failure])%list)
  /\ (forall panel,
        let s' := step world s (Message (RequestPanel panel) message) in
        fetched s' = fetched s /\ env s' = env s /\ pending s' = pending s
        /\ _history s' = _history s
        /\ panel_posted s' = (panel_posted s ++ [(panel, failure)])%list).
Proof.
  intros Hc Hu Hune Hm Hmne Herr failure.
  assert (Hcall : makeRequest_call world message = Throw error).
  { unfold makeRequest_call, new_URL. rewrite Hu. simpl. rewrite Herr. reflexivity. }
  apply truthy_true in Hune, Hmne.
  assert (Hstep : forall o,
            step world s (Message o message)
            = settle world o url method (Normal failure) (tick (tick s))).
  { intros o. simpl. destruct o; unfold_handlers; rewrite Hc, Hu, Hm; simpl;
      rewrite Hune, Hmne; simpl; unfold submit; rewrite Hcall; reflexivity. }
  split.
  - cbv zeta. rewrite Hstep.
    destruct (settle_view_history world HistoryView url method failure (tick (tick s)))
      as [[-> _] (_ & _ & -> & -> & -> & _)].
    repeat split.
  - intros panel. cbv zeta. rewrite Hstep.
    destruct (settle_view_history world (RequestPanel panel) url method failure
                (tick (tick s)))
      as [(-> & _ & ->) (_ & _ & -> & -> & -> & _)].
    repeat split.
Qed.

(** X10. A request is settled once and never sent again: the answer of
    the transport, a rejection included, takes the request off the list
    of those that wait and calls [fetch] for nothing, and a second
    answer for the same request changes nothing at all. *)
Theorem settled_once_never_retried (s : State) (id : nat)
    (result again : completion Response.t) :
  let s' := step world s (FetchSettled id result) in
  fetched s' = fetched s
  /\ pending s' = delete id (pending s)
  /\ step world s' (FetchSettled id again) = s'.
Proof.
  simpl. destruct (pending s !! id) as [p|] eqn:Hp.
  - destruct (makeRequest_resume_normal (startTime p) (World.Date_now world (clock s)) result)
      as [response Hr].
    rewrite Hr.
    destruct (settle_view_history world (origin p) (pending_url p) (pending_method p)
                response (tick (forget id s)))
      as [_ (_ & _ & Hpend & Hf & _)].
    rewrite Hpend, Hf. simpl. rewrite lookup_delete_eq. repeat split.
  - rewrite Hp. split; [reflexivity|]. split; [|reflexivity].
    symmetry. apply delete_id. exact Hp.
Qed.

End Settling.

(** ** The open panels *)


Lemma remove_first_other (panel q : nat) (l : list nat) :
  q <> panel -> q ∈ l -> q ∈ remove_first panel l.
Proof.
  intros Hne. induction l as [|x l IH]; simpl; [intros H; exact H|].
  intros H. destruct (Nat.eqb x panel) eqn:E.
  - apply Nat.eqb_eq in E. subst x.
    apply elem_of_cons in H as [H|H]; [congruence | exact H].
  - apply elem_of_cons in H as [->|H]; [left | right; apply IH; exact H].
Qed.



Section Panels.

Variable world : World.t.



End Panels.

(** ** Time *)

Lemma makeRequest_resume_time (startTime endTime : Z)
    (result : completion Response.t) (response : ResponseData.t) :
  makeRequest_resume startTime endTime result = Normal response ->
  ResponseData.time response = (endTime - startTime)%Z.
Proof.
  unfold makeRequest_resume. destruct result as [r|e]; simpl.
  - unfold makeRequest_data. destruct (Response.text r); simpl;
      intros H; injection H as <-; reflexivity.
  - intros H. injection H as <-. reflexivity.
Qed.

Section Time.

Variable world : World.t.

Hypothesis clock_monotone :
  forall n m, n <= m -> (World.Date_now world n <= World.Date_now world m)%Z.

Lemma settle_clock (o : Origin) (url method : string)
    (response : ResponseData.t) (s : State) :
  clock (settle world o url method (Normal response) s)
  = match o with
    | HistoryView => S (clock s)
    | RequestPanel _ => clock s
    end.
Proof.
  destruct o; simpl; [|reflexivity].
  unfold on_fulfilled, _update, post_to_view.
  destruct (_view s) eqn:E; simpl; rewrite ?E; reflexivity.
Qed.

(** Settling keeps the clock respected, when the response took no
    negative time and the state it starts from respects the clock. *)
Lemma settle_clock_respected (o : Origin) (url method : string)
    (response : ResponseData.t) (s0 : State) :
  clock_respected world s0 ->
  (0 <= ResponseData.time response)%Z ->
  clock_respected world (settle world o url method (Normal response) s0).
Proof.
  intros (Hp & Hh & Hs) Htime.
  pose proof (settle_clock o url method response s0) as Hc.
  destruct (settle_view_history world o url method response s0)
    as [H (_ & _ & Hpend & _)].
  unfold clock_respected. rewrite Hpend, Hc.
  destruct o as [|panel].
  - destruct H as [Hhist _]. rewrite Hhist. split; [|split].
    + intros id p H. destruct (Hp id p H) as (k & Hk & E). exists k. split; [lia | exact E].
    + intros h Hin. apply elem_of_app in Hin as [Hin|Hin].
      * destruct (Hh h Hin) as [(k & Hk & E) Ht]. split; [|exact Ht].
        exists k. split; [lia | exact E].
      * apply list_elem_of_singleton in Hin. subst h. simpl. split; [|exact Htime].
        exists (clock s0). split; [lia | reflexivity].
    + intros i j hi hj Hij Hi Hj.
      destruct (decide (j < length (_history s0))) as [Hlt|Hge].
      * rewrite lookup_app_l in Hi by lia. rewrite lookup_app_l in Hj by lia.
        exact (Hs i j hi hj Hij Hi Hj).
      * assert (Hlast : hj = RequestHistory.mk url method
                               (World.Date_now world (clock s0)) response).
        { rewrite lookup_app_r in Hj by lia.
          destruct (j - length (_history s0)) as [|n]; simpl in Hj; [congruence|].
          rewrite lookup_nil in Hj. discriminate. }
        subst hj. simpl.
        destruct (decide (i < length (_history s0))) as [Hlt|Hge'].
        -- rewrite lookup_app_l in Hi by lia.
           destruct (Hh hi (list_elem_of_lookup_2 _ _ _ Hi)) as [(k & Hk & ->) _].
           apply clock_monotone. lia.
        -- rewrite lookup_app_r in Hi by lia.
           destruct (i - length (_history s0)) as [|n]; simpl in Hi.
           ++ injection Hi as <-. simpl. lia.
           ++ rewrite lookup_nil in Hi. discriminate.
  - destruct H as (Hhist & _). rewrite Hhist. split; [exact Hp|]. split; assumption.
Qed.

Lemma clock_respected_step (s : State) (e : Event) :
  clock_respected world s -> clock_respected world (step world s e).
Proof.
  intros Inv. pose proof Inv as (Hp & Hh & Hs).
  assert (Hlater : forall s0,
            _history s0 = _history s -> clock s <= clock s0 ->
            (forall id p, pending s0 !! id = Some p ->
               exists k, k < clock s0 /\ startTime p = World.Date_now world k) ->
            clock_respected world s0).
  { intros s0 Hhist Hc Hp0. unfold clock_respected. rewrite Hhist.
    split; [exact Hp0|]. split; [|exact Hs].
    intros h Hin. destruct (Hh h Hin) as [(k & Hk & E) Ht]. split; [|exact Ht].
    exists k. split; [lia | exact E]. }
  destruct (step_cases world s e)
    as [->|[[_ ->]|[[url ->]|[->|[[panel ->]|[(o & message & u & m & call & _ & _ & ->)
       |[(o & message & u & m & error & _ & _ & _ & _ & ->)
       |(id & p & result & response & _ & Hpend & Hr & ->)]]]]]]].
  - exact Inv.
  - apply Hlater; [unfold _update; reflexivity | unfold _update; simpl; lia | exact Hp].
  - exact Inv.
  - exact Inv.
  - exact Inv.
  - apply Hlater; [reflexivity | simpl; lia |].
    simpl. intros id p H.
    destruct (decide (requests_started s = id)) as [<-|Hne].
    + rewrite lookup_insert_eq in H. injection H as <-. simpl.
      exists (clock s). split; [lia | reflexivity].
    + rewrite lookup_insert_ne in H by exact Hne.
      destruct (Hp id p H) as (k & Hk & E). exists k. split; [lia | exact E].
  - apply settle_clock_respected.
    + apply Hlater; [reflexivity | simpl; lia |].
      simpl. intros id p H. destruct (Hp id p H) as (k & Hk & E).
      exists k. split; [lia | exact E].
    + simpl. pose proof (clock_monotone (clock s) (S (clock s)) ltac:(lia)). lia.
  - apply settle_clock_respected.
    + apply Hlater; [reflexivity | simpl; lia |].
      simpl. intros id' p' H.
      destruct (decide (id = id')) as [<-|Hne].
      * rewrite lookup_delete_eq in H. discriminate.
      * rewrite lookup_delete_ne in H by exact Hne.
        destruct (Hp id' p' H) as (k & Hk & E). exists k. split; [lia | exact E].
    + rewrite (makeRequest_resume_time _ _ _ _ Hr).
      destruct (Hp id p Hpend) as (k & Hk & ->).
      pose proof (clock_monotone k (clock s) ltac:(lia)). lia.
Qed.

(** X12. With a clock that does not run backwards, the entries of the
    history stand in the order of their time stamps, and no response in
    it took a negative time: each was timed from the submission of its
    request to the answer, and stamped when it was added. *)
Theorem history_is_chronological (env0 : gmap string string) (events : list Event) :
  let s := run world (activate env0) events in
  (forall i j hi hj,
     i <= j -> _history s !! i = Some hi -> _history s !! j = Some hj ->
     (RequestHistory.timestamp hi <= RequestHistory.timestamp hj)%Z)
  /\ (forall h, h ∈ _history s ->
        (0 <= ResponseData.time (RequestHistory.response h))%Z).
Proof.
  intros s.
  assert (Inv : clock_respected world s).
  { subst s. apply run_invariant.
    - unfold clock_respected. simpl. split; [|split].
      + intros id p H. rewrite lookup_empty in H. discriminate.
      + intros h H. apply elem_of_nil in H. destruct H.
      + intros i j hi hj _ H. rewrite lookup_nil in H. discriminate.
    - intros s0 e. apply clock_respected_step. }
  destruct Inv as (_ & Hh & Hs). split; [exact Hs|].
  intros h Hin. exact (proj2 (Hh h Hin)).
Qed.

End Time.

(** ** Worked examples of runs *)



Lemma invalid_url_settles_at_once_witness :
  let message := Sample.request "GET" "not a url" "" in
  let s := run Sample.world (activate ∅) [ResolveWebviewView] in
  let s' := step Sample.world s (Message HistoryView message) in
  fetched s' = [] /\ tls_flag s' = None /\ pending s' = ∅
  /\ (ResponseData.body ∘ RequestHistory.response) <$> _history s' = ["Invalid URL"]
  /\ (ResponseData.status ∘ RequestHistory.response) <$> _history s' = [0%Z].
Proof.
  intros message s s'.
  destruct (invalid_url_settles_at_once Sample.world s message "not a url" "GET"
              (ThrownError "Invalid URL"))
    as [(H1 & H2 & H3 & H4) _]; try reflexivity; try discriminate.
  fold s' in H1, H2, H3, H4.
  split; [rewrite H1; reflexivity|]. split; [unfold tls_flag; rewrite H2; reflexivity|].
  split; [rewrite H3; reflexivity|]. rewrite H4. split; reflexivity.
Defined.

Lemma settled_once_never_retried_witness :
  let s :=
    run Sample.world (activate ∅)
      [NewRequestCommand;
       Message (RequestPanel 0) (Sample.request "GET" "http://a.test/" "")] in
  let s' := step Sample.world s (FetchSettled 0 (Throw (ThrownError "socket hang up"))) in
  length (fetched s) = 1 /\ fetched s' = fetched s /\ pending s' = ∅
  /\ step Sample.world s' (FetchSettled 0 (Sample.ok "again")) = s'.
Proof.
  intros s s'. split; [vm_compute; reflexivity|].
  destruct (settled_once_never_retried Sample.world s 0
              (Throw (ThrownError "socket hang up")) (Sample.ok "again"))
    as (H1 & H2 & H3).
  fold s' in H1, H2, H3. split; [exact H1|]. split; [|exact H3].
  rewrite H2. vm_compute. reflexivity.
Defined.


Lemma history_is_chronological_witness :
  let events :=
    [ResolveWebviewView;
     Message HistoryView (Sample.request "GET" "http://a.test/" "");
     Message HistoryView (Sample.request "GET" "http://b.test/" "");
     FetchSettled 1 (Sample.ok "b"); FetchSettled 0 (Sample.ok "a")] in
  let s := run Sample.world (activate ∅) events in
  RequestHistory.timestamp <$> _history s = [1021%Z; 1035%Z]
  /\ (forall h, h ∈ _history s ->
        (0 <= ResponseData.time (RequestHistory.response h))%Z).
Proof.
  intros events s. split; [vm_compute; reflexivity|].
  refine (proj2 (history_is_chronological Sample.world _ ∅ events)).
  intros n m Hnm. simpl. unfold Sample.Date_now. lia.
Defined.

(** ** The tables of the request panel *)




(** X14. Unticking a row puts the placeholders back in its two boxes,
    forgets that they were edited, and touches no other row. The row is
    then not sent: a name that no other ticked, filled row bears is
    absent from what [sendRequest] collects from the table. *)
Theorem unticked_row_is_withdrawn (rows : list ParamRow.t) (index : nat)
    (row : ParamRow.t) :
  rows !! index = Some row -> ParamRow.checkbox row = true ->
  let rows' := change_event index rows in
  let reset textbox := Input.mk (Input.default textbox) (Input.default textbox) false in
  length rows' = length rows
  /\ rows' !! index
     = Some (ParamRow.mk false (reset (ParamRow.keyInput row))
               (reset (ParamRow.valueInput row)))
  /\ (forall j, j <> index -> rows' !! j = rows !! j)
  /\ (forall name,
        (forall j r, j <> index -> rows !! j = Some r ->
           ParamRow.checkbox r = true -> Input.value (ParamRow.valueInput r) <> "" ->
           Input.value (ParamRow.keyInput r) <> name) ->
        collect (row_read <$> rows') !! name = None).
Proof.
  intros H Hc rows' reset. subst rows'. unfold change_event.
  split; [apply length_alter|]. split; [|split].
  - rewrite list_lookup_alter_eq, H. simpl. rewrite Hc. reflexivity.
  - intros j Hj. apply list_lookup_alter_ne. congruence.
  - intros name Hothers. unfold collect.
    rewrite fold_collect_other; [apply lookup_empty|].
    intros r Hr Hcr Hval. apply list_elem_of_fmap in Hr as (r0 & -> & Hr0).
    apply list_elem_of_lookup in Hr0 as [j Hj].
    destruct (decide (j = index)) as [->|Hne].
    + rewrite list_lookup_alter_eq, H in Hj. simpl in Hj. rewrite Hc in Hj.
      injection Hj as <-. discriminate Hcr.
    + rewrite list_lookup_alter_ne in Hj by congruence.
      exact (Hothers j r0 Hne Hj Hcr Hval).
Qed.

(** X15. Clicking into a box that shows its placeholder and leaving it
    without typing leaves the table as it was: the focus empties the
    box and the blur puts the placeholder back. A box the user has
    edited is changed by neither, so one that was emptied by hand stays
    empty. *)
Theorem focus_then_blur (rows : list ParamRow.t) (index : nat) (box : Box)
    (row : ParamRow.t) :
  rows !! index = Some row ->
  (Input.userModified (box_of box row) = false ->
   Input.value (box_of box row) = Input.default (box_of box row)) ->
  blur_event index box (focus_event index box rows) = rows
  /\ (Input.userModified (box_of box row) = true ->
      focus_event index box rows = rows /\ blur_event index box rows = rows).
Proof.
  intros H Hpristine. unfold blur_event, focus_event.
  assert (Hid : forall f : ParamRow.t -> ParamRow.t, f row = row -> alter f index rows = rows).
  { intros f Hf. apply list_eq. intros j.
    destruct (decide (j = index)) as [->|Hne].
    - rewrite list_lookup_alter_eq, H. simpl. rewrite Hf. reflexivity.
    - apply list_lookup_alter_ne. congruence. }
  split.
  - rewrite list_alter_alter_eq. apply Hid. unfold compose.
    destruct box, row as [c [kv kd km] [vv vd vm]]; simpl in *;
      unfold on_focus, on_blur; simpl.
    + destruct km; simpl; [rewrite andb_false_r; reflexivity|].
      rewrite (Hpristine eq_refl). reflexivity.
    + destruct vm; simpl; [rewrite andb_false_r; reflexivity|].
      rewrite (Hpristine eq_refl). reflexivity.
  - intros Hm. split; apply Hid;
      destruct box, row as [c [kv kd km] [vv vd vm]]; simpl in *; subst;
      unfold on_focus, on_blur; simpl; rewrite ?andb_false_r; reflexivity.
Qed.

(** ** The response pane *)

Section Shown.

Variable world : World.t.

(** X16. What the user reads after a request. When it failed, the status
    line is [0 Error], the body is the message of the error behind
    [Error: ], and both tables are empty. When the transport answered,
    with a status other than 0 as every HTTP response has, the body is
    the text of the response as it came, and the size is its length. *)
Theorem what_the_pane_shows
    (fetch : FetchCall.t -> completion Response.t)
    (startTime endTime : Z) (message : WebviewMessage.t) (r : ResponseData.t) :
  makeRequest world fetch startTime endTime message = Normal r ->
  (forall call response,
      fetch call = Normal response -> Response.status response <> 0%Z) ->
  let shown := updateResponsePanel r in
  (forall error,
     makeRequest_try world fetch startTime endTime message = Throw error ->
     ResponsePane.responseStatus shown = "0 Error"
     /\ ResponsePane.responseBody shown = "Error: " ++ errorMessage error
     /\ ResponsePane.responseSize shown
        = Number_toString (Z.of_nat (String.length (errorMessage error))) ++ " bytes"
     /\ ResponsePane.headersTable shown = "<tr><th>Name</th><th>Value</th></tr>"
     /\ ResponsePane.cookiesTable shown = "<tr><th>Name</th><th>Value</th></tr>")
  /\ (forall call response text,
        makeRequest_call world message = Normal call ->
        fetch call = Normal response ->
        Response.text response = Normal text ->
        ResponsePane.responseStatus shown
        = Number_toString (Response.status response) ++ " "
          ++ Response.statusText response
        /\ ResponsePane.responseBody shown = text
        /\ ResponsePane.responseSize shown
           = Number_toString (Z.of_nat (String.length text)) ++ " bytes").
Proof.
  intros Hr Hstatus shown. subst shown. revert Hr. unfold makeRequest. split.
  - intros error Htry. rewrite Htry in Hr. simpl in Hr. injection Hr as <-.
    repeat split.
  - intros call response text Hcall Hf Ht. revert Hr.
    unfold makeRequest_try. rewrite Hcall. simpl. rewrite Hf. simpl.
    unfold makeRequest_data. rewrite Ht. simpl. intros Hr. injection Hr as <-.
    unfold updateResponsePanel. cbn [ResponsePane.responseStatus
      ResponsePane.responseBody ResponsePane.responseSize ResponseData.status
      ResponseData.statusText ResponseData.body ResponseData.size].
    split; [reflexivity|]. split; [|reflexivity].
    destruct (Z.eqb_spec (Response.status response) 0) as [E|_]; [|reflexivity].
    exfalso. exact (Hstatus _ _ Hf E).
Qed.

(** X17. Pressing Send with the URL box empty does nothing: the handler
    of the panel drops the message, so that no request is made and no
    response, not even an error, comes back to the pane. *)
Theorem send_without_url_does_nothing (s : State) (panel : nat) (form : Form.t) :
  Form.url form = "" ->
  step world s (Message (RequestPanel panel) (sendRequest form)) = s.
Proof.
  intros Hurl. simpl. unfold_handlers. simpl. rewrite Hurl. reflexivity.
Qed.

End Shown.

(** ** Worked examples of the panel *)


Lemma unticked_row_is_withdrawn_witness :
  let rows := input_event true 0 ValueBox "7" initial_query_rows in
  let rows' := change_event 0 rows in
  collect (row_read <$> rows) !! "parameter" = Some "7"
  /\ collect (row_read <$> rows') !! "parameter" = None
  /\ row_read <$> rows'
     = [Row.mk false "parameter" "value"; Row.mk false "parameter" "value"].
Proof.
  intros rows rows'. split; [vm_compute; reflexivity|]. split; [|reflexivity].
  destruct (unticked_row_is_withdrawn rows 0
              (ParamRow.mk true (Input.mk "parameter" "parameter" false)
                 (Input.mk "7" "value" true)) eq_refl eq_refl)
    as (_ & _ & _ & H).
  apply H. intros j r Hj Hr Hc. exfalso.
  destruct j as [|[|j]]; [congruence | | ]; simpl in Hr.
  - injection Hr as <-. discriminate Hc.
  - discriminate.
Defined.

Lemma focus_then_blur_witness :
  blur_event 0 KeyBox (focus_event 0 KeyBox initial_query_rows) = initial_query_rows
  /\ Input.value <$> (ParamRow.keyInput <$> focus_event 0 KeyBox initial_query_rows)
     = [""].
Proof.
  split; [|reflexivity].
  refine (proj1 (focus_then_blur initial_query_rows 0 KeyBox
                   (ParamRow.mk true (Input.mk "parameter" "parameter" false)
                      (Input.mk "value" "value" false)) eq_refl _)).
  intros _. reflexivity.
Defined.

Lemma what_the_pane_shows_witness :
  let fetch := fun _ : FetchCall.t =>
    Normal (Response.mk 404 "Not Found" None [] (Normal "no such page")) in
  let message := Sample.request "GET" "http://example.test/missing" "" in
  let r := ResponseData.mk 404 "Not Found" ∅ "no such page" 12 30 ∅ in
  makeRequest Sample.world fetch 100 130 message = Normal r
  /\ ResponsePane.responseStatus (updateResponsePanel r) = "404 Not Found"
  /\ ResponsePane.responseBody (updateResponsePanel r) = "no such page"
  /\ ResponsePane.responseSize (updateResponsePanel r) = "12 bytes".
Proof.
  intros fetch message r.
  assert (H : makeRequest Sample.world fetch 100 130 message = Normal r)
    by (vm_compute; reflexivity).
  split; [exact H|].
  destruct (what_the_pane_shows Sample.world fetch 100 130 message r H) as [_ H2].
  - intros call response Hf. injection Hf as <-. discriminate.
  - exact (H2 (FetchCall.mk (URL.mk "http://example.test/missing" [])
                 (makeRequest_options message))
              (Response.mk 404 "Not Found" None [] (Normal "no such page"))
              "no such page" ltac:(vm_compute; reflexivity) eq_refl eq_refl).
Defined.

Lemma send_without_url_does_nothing_witness :
  let form := Form.mk "GET" "" [Row.mk true "parameter" "value"] [] "none" "" "" "" "" in
  let s := run Sample.world (activate ∅) [NewRequestCommand] in
  step Sample.world s (Message (RequestPanel 0) (sendRequest form)) = s.
Proof.
  intros form s.
  exact (send_without_url_does_nothing Sample.world s 0 form eq_refl).
Defined.

(** ** Links in the history view *)

Lemma non_space_run_all (s : string) :
  no_white_space s = true -> non_space_run s = s.
Proof.
  unfold no_white_space. induction s as [|c s IH]; simpl; [done|].
  intros H. apply andb_prop in H as [Hc Hs].
  destruct (JS.is_white_space c); [discriminate|]. by rewrite IH.
Qed.

Lemma non_space_run_app (a : string) (w : ascii) (b : string) :
  JS.is_white_space w = true ->
  non_space_run (a ++ String w b) = non_space_run a.
Proof.
  intros Hw. induction a as [|c a IH]; simpl.
  - by rewrite Hw.
  - destruct (JS.is_white_space c); [done|]. by rewrite IH.
Qed.

Lemma non_space_run_prefix (p s : string) :
  no_white_space p = true -> non_space_run (p ++ s) = p ++ non_space_run s.
Proof.
  unfold no_white_space. induction p as [|c p IH]; simpl; [done|].
  intros H. apply andb_prop in H as [Hc Hs].
  destruct (JS.is_white_space c); [discriminate|]. by rewrite IH.
Qed.

Lemma starts_with_app (p s : string) :
  starts_with p (p ++ s) = Some s.
Proof.
  induction p as [|c p IH]; simpl; [done|]. by rewrite Ascii.eqb_refl.
Qed.

Lemma starts_with_inv (p s rest : string) :
  starts_with p s = Some rest -> s = p ++ rest.
Proof.
  revert s. induction p as [|a p IH]; intros s; simpl.
  - by intros [= ->].
  - destruct s as [|c s]; [done|].
    destruct (Ascii.eqb a c) eqn:E; [|done].
    apply Ascii.eqb_eq in E as ->. intros H. by rewrite (IH _ H).
Qed.

Lemma starts_with_before_space (p a : string) (w : ascii) (b : string) :
  no_white_space p = true -> JS.is_white_space w = true ->
  starts_with p (a ++ String w b)
  = (fun rest => rest ++ String w b) <$> starts_with p a.
Proof.
  unfold no_white_space. intros Hp Hw. revert a.
  induction p as [|c p IH]; intros a; simpl; [done|].
  simpl in Hp. apply andb_prop in Hp as [Hc Hp].
  destruct a as [|d a]; simpl.
  - destruct (Ascii.eqb c w) eqn:E; [|done].
    apply Ascii.eqb_eq in E as ->. by rewrite Hw in Hc.
  - destruct (Ascii.eqb c d); [|done]. by apply IH.
Qed.

Lemma link_after_before_space (scheme a : string) (w : ascii) (b : string) :
  no_white_space scheme = true -> JS.is_white_space w = true ->
  link_after scheme (a ++ String w b) = link_after scheme a.
Proof.
  intros Hp Hw. unfold link_after.
  rewrite starts_with_before_space by done.
  destruct (starts_with scheme a) as [rest|]; simpl; [|done].
  by rewrite non_space_run_app.
Qed.

Lemma link_at_before_space (a : string) (w : ascii) (b : string) :
  JS.is_white_space w = true ->
  link_at (a ++ String w b) = link_at a.
Proof.
  intros Hw. unfold link_at.
  by rewrite !link_after_before_space.
Qed.

Lemma link_after_run (scheme s url : string) :
  no_white_space scheme = true ->
  link_after scheme s = Some url -> url = non_space_run s.
Proof.
  intros Hp. unfold link_after.
  destruct (starts_with scheme s) as [rest|] eqn:E; [|done].
  apply starts_with_inv in E as ->.
  rewrite non_space_run_prefix by done.
  destruct (non_space_run rest); [done|]. by intros [= <-].
Qed.

Lemma link_at_run (s url : string) :
  link_at s = Some url -> url = non_space_run s.
Proof.
  unfold link_at.
  destruct (link_after "https://" s) as [u|] eqn:E.
  - intros [= <-]. by eapply link_after_run, E.
  - by apply link_after_run.
Qed.

Lemma string_append_assoc (a b c : string) :
  (a ++ b) ++ c = a ++ (b ++ c).
Proof.
  induction a as [|x a IH]; [done|].
  change (String x ((a ++ b) ++ c) = String x (a ++ (b ++ c))). by f_equal.
Qed.

Lemma replace_links_from_past (n : nat) (s : string) :
  String.length s <= n -> replace_links_from n s = "".
Proof.
  revert n. induction s as [|c s IH]; intros n; simpl; [done|].
  destruct n as [|n]; [lia|]. intros H. apply IH. lia.
Qed.

Lemma replace_links_from_before_space (a : string) (w : ascii) (b : string) (n : nat) :
  JS.is_white_space w = true ->
  n <= String.length (non_space_run a) ->
  replace_links_from n (a ++ String w b)
  = replace_links_from n a ++ String w (replace_links_from 0 b).
Proof.
  intros Hw. revert n. induction a as [|c a IH]; intros n Hn.
  - simpl in Hn. assert (n = 0) as -> by lia.
    change ("" ++ String w b) with (String w b).
    cbn [replace_links_from].
    change (String w b) with ("" ++ String w b) at 1.
    rewrite link_at_before_space by done. reflexivity.
  - change (String c a ++ String w b) with (String c (a ++ String w b)).
    cbn [replace_links_from]. destruct n as [|n].
    + change (String c (a ++ String w b)) with (String c a ++ String w b).
      rewrite link_at_before_space by done.
      destruct (link_at (String c a)) as [url|] eqn:E.
      * apply link_at_run in E. simpl in E.
        destruct (JS.is_white_space c).
        -- subst url. simpl. rewrite IH by (simpl; lia).
           by rewrite !string_append_assoc.
        -- subst url. cbn [String.length]. rewrite Nat.sub_succ, Nat.sub_0_r.
           rewrite IH by lia. by rewrite !string_append_assoc.
      * rewrite IH by lia. reflexivity.
    + simpl in Hn. destruct (JS.is_white_space c); simpl in Hn; [lia|].
      apply IH. lia.
Qed.

Lemma no_link_starts_sound (s : string) :
  no_link_starts s = true ->
  forall before rest, s = before ++ rest -> link_at rest = None.
Proof.
  intros H before. revert s H.
  induction before as [|c before IH]; intros s H rest ->.
  - change ("" ++ rest) with rest in H.
    destruct rest; cbn [no_link_starts] in H; by destruct (link_at _).
  - change (String c before ++ rest) with (String c (before ++ rest)) in H.
    cbn [no_link_starts] in H. destruct (link_at _); [done|]. by eapply IH.
Qed.

(** X18. A response body in which no link starts is shown in the
    history as it is, character for character: nothing in it is
    escaped. *)
Theorem body_without_link_is_shown_as_it_is (body : string) :
  (forall before rest, body = before ++ rest -> link_at rest = None) ->
  replace_links body = body.
Proof.
  unfold replace_links. induction body as [|c body IH]; intros H; [done|].
  cbn [replace_links_from]. rewrite (H "" (String c body) eq_refl).
  f_equal. apply IH. intros before rest ->.
  by apply (H (String c before) rest).
Qed.

Lemma body_without_link_is_shown_as_it_is_witness :
  replace_links "<b>HTTP://A.TEST is not a link</b>"
  = "<b>HTTP://A.TEST is not a link</b>".
Proof.
  apply body_without_link_is_shown_as_it_is.
  apply no_link_starts_sound. vm_compute. reflexivity.
Defined.

Lemma string_append_empty (s : string) : s ++ "" = s.
Proof.
  induction s as [|c s IH]; [done|].
  change (String c (s ++ "") = String c s). by f_equal.
Qed.

(** X19. Links are looked for in every stretch between white space on
    its own: a link ends at the first white space after it, and the
    white space itself is kept. *)
Theorem links_end_at_white_space (before : string) (w : ascii) (after : string) :
  JS.is_white_space w = true ->
  replace_links (before ++ String w after)
  = replace_links before ++ String w (replace_links after).
Proof.
  intros Hw. unfold replace_links.
  apply replace_links_from_before_space; [done | lia].
Qed.

Lemma links_end_at_white_space_witness :
  replace_links "see http://a.test/x now"
  = "see " ++ link_span "http://a.test/x" ++ " now".
Proof.
  etransitivity;
    [exact (links_end_at_white_space "see http://a.test/x" " " "now" eq_refl)|].
  vm_compute. reflexivity.
Defined.

(** X20. A stretch without white space that starts with [http://] or
    [https://], in small letters, and goes on for one character at
    least is made one link as a whole. *)
Theorem link_is_wrapped (scheme rest : string) :
  scheme = "http://" \/ scheme = "https://" ->
  rest <> "" ->
  no_white_space rest = true ->
  link_at (scheme ++ rest) = Some (scheme ++ rest)
  /\ replace_links (scheme ++ rest) = link_span (scheme ++ rest).
Proof.
  intros Hs Hr Hn.
  assert (Hat : link_at (scheme ++ rest) = Some (scheme ++ rest)).
  { unfold link_at, link_after. destruct Hs as [-> | ->].
    - change (starts_with "https://" ("http://" ++ rest)) with (@None string).
      rewrite starts_with_app, non_space_run_all by done.
      by destruct rest.
    - rewrite starts_with_app, non_space_run_all by done.
      by destruct rest. }
  split; [exact Hat|].
  unfold replace_links.
  assert (exists c tail, scheme ++ rest = String c tail) as (c & tail & E)
    by (destruct Hs as [-> | ->]; eexists _, _; reflexivity).
  rewrite E in *. cbn [replace_links_from]. rewrite Hat.
  rewrite replace_links_from_past by (cbn [String.length]; lia).
  apply string_append_empty.
Qed.

Lemma link_is_wrapped_witness :
  replace_links "https://a.test/?q='1'&r=<2>"
  = link_span "https://a.test/?q='1'&r=<2>".
Proof.
  refine (proj2 (link_is_wrapped "https://" "a.test/?q='1'&r=<2>" _ _ eq_refl)).
  - right. reflexivity.
  - discriminate.
Defined.

(** ** Nothing without a message *)

Section Unasked.

Variable world : World.t.



End Unasked.
